(** * SubmitKatanaToDeadline: a shallow embedding of the Katana submitter

    The development follows [SubmitKatanaToDeadline.py] and
    [deadline_katana/scene.py].  Python strings are [string], the
    [nodeToID] dictionary is a [gmap string string], lists are lists, and
    the effects of the script (message boxes, files, the external
    [deadlinecommand] process) are recorded in a chronological trace. *)

From Stdlib Require Import Ascii String DecimalString DecimalNat.
From stdpp Require Import gmap strings list fin_maps pretty.


(** ** Python string operations used by the script *)

Module PyStr.

Definition LF : ascii := "010"%char.
Definition nl : string := String LF "".

Definition isdigit (c : ascii) : bool :=
  let n := nat_of_ascii c in (48 <=? n)%nat && (n <=? 57)%nat.

(** [s.startswith(p)] *)
Definition startswith (s p : string) : bool := String.prefix p s.

Fixpoint drop (n : nat) (s : string) : string :=
  match n, s with
  | O, _ => s
  | S _, "" => ""
  | S k, String _ s' => drop k s'
  end.

(** [sep.join(l)] *)
Fixpoint join (sep : string) (l : list string) : string :=
  match l with
  | [] => ""
  | [x] => x
  | x :: rest => x +:+ sep +:+ join sep rest
  end.

(** [s.split(c)] for a one-character separator: the fields between the
    separators, empty fields included. *)
Fixpoint split (c : ascii) (s : string) : list string :=
  match s with
  | "" => [""]
  | String a s' =>
      if Ascii.eqb a c then "" :: split c s'
      else match split c s' with
           | [] => [String a ""]
           | f :: fs => String a f :: fs
           end
  end.

(** [s.replace(old, new)] for a non-empty [old]: occurrences are taken
    from left to right and do not overlap.  [skip] counts the characters
    of an occurrence that are still to be passed over. *)
Fixpoint replace_from (old new : string) (skip : nat) (s : string) : string :=
  match s with
  | "" => ""
  | String a s' =>
      match skip with
      | S k => replace_from old new k s'
      | O =>
          if String.prefix old s
          then new +:+ replace_from old new (String.length old - 1) s'
          else String a (replace_from old new 0 s')
      end
  end.

Definition replace (s old new : string) : string := replace_from old new 0 s.

(** The split of [s] around the rightmost occurrence of [old]. *)
Fixpoint rpartition (old s : string) : option (string * string) :=
  match s with
  | "" => None
  | String a s' =>
      match rpartition old s' with
      | Some (l, r) => Some (String a l, r)
      | None =>
          if String.prefix old s then Some ("", drop (String.length old) s)
          else None
      end
  end.

(** [s.rsplit(old, maxsplit)] for a non-empty [old]. *)
Fixpoint rsplit (s old : string) (maxsplit : nat) : list string :=
  match maxsplit with
  | O => [s]
  | S k =>
      match rpartition old s with
      | None => [s]
      | Some (l, r) => rsplit l old k ++ [r]
      end
  end.

(** The characters of Python's [str.strip()]. *)
Definition isspace (c : ascii) : bool :=
  let n := nat_of_ascii c in
  (n =? 32)%nat || ((9 <=? n)%nat && (n <=? 13)%nat).

Fixpoint lstrip (s : string) : string :=
  match s with
  | "" => ""
  | String a s' => if isspace a then lstrip s' else s
  end.

Fixpoint rstrip (s : string) : string :=
  match s with
  | "" => ""
  | String a s' =>
      match rstrip s' with
      | "" => if isspace a then "" else String a ""
      | t => String a t
      end
  end.

Definition strip (s : string) : string := rstrip (lstrip s).

(** [c in s] for a character. *)
Fixpoint contains (c : ascii) (s : string) : bool :=
  match s with
  | "" => false
  | String a s' => Ascii.eqb a c || contains c s'
  end.

(** [s.lower()] on ASCII letters. *)
Definition lower_char (c : ascii) : ascii :=
  let n := nat_of_ascii c in
  if (65 <=? n)%nat && (n <=? 90)%nat then ascii_of_nat (n + 32) else c.

Fixpoint lower (s : string) : string :=
  match s with
  | "" => ""
  | String a s' => String (lower_char a) (lower s')
  end.

End PyStr.

(** ** The regular expression of [GetPaddedPath] *)

(** The longest run of digits at the head of [s]. *)
Fixpoint take_digits (s : string) : string :=
  match s with
  | "" => ""
  | String a s' => if PyStr.isdigit a then String a (take_digits s') else ""
  end.

(** [re.compile(r"\.([0-9]+)").findall(path)]: the digit groups of the
    non-overlapping matches, leftmost first.  A match is a dot followed by
    the longest non-empty run of digits; the search resumes after the
    match, which [skip] accounts for. *)
Fixpoint findall_from (skip : nat) (s : string) : list string :=
  match s with
  | "" => []
  | String a s' =>
      match skip with
      | S k => findall_from k s'
      | O =>
          if Ascii.eqb a "."%char then
            match take_digits s' with
            | "" => findall_from 0 s'
            | ds => ds :: findall_from (String.length ds) s'
            end
          else findall_from 0 s'
      end
  end.

Definition paddingRe_findall (path : string) : list string := findall_from 0 path.

(** [RightReplace]: [new.join(s.rsplit(old, occurrence))]. *)
Definition RightReplace (s old new : string) (occurrence : nat) : string :=
  PyStr.join new (PyStr.rsplit s old occurrence).

(** The loop [while len(padding) < paddingSize: padding = padding + "#"];
    it runs at most [paddingSize] times from the empty string. *)
Fixpoint padding_loop (fuel : nat) (padding : string) (paddingSize : nat) : string :=
  match fuel with
  | O => padding
  | S k =>
      if (String.length padding <? paddingSize)%nat
      then padding_loop k (padding +:+ "#") paddingSize
      else padding
  end.

Definition GetPaddedPath (path : string) : string :=
  let paddingMatches := paddingRe_findall path in
  match last paddingMatches with
  | Some paddingString =>
      let paddingSize := String.length paddingString in
      let padding := padding_loop paddingSize "" paddingSize in
      RightReplace path paddingString padding 1
  | None => path
  end.

(** ** Reading the job id from the submission output *)

Inductive PyError := IndexError | KeyError | AttributeError.

(** [GetJobIDFromJobResults]: [_id[0]] raises [IndexError] on an empty
    list. *)
Definition GetJobIDFromJobResults (results : string) : PyError + string :=
  let resultArray := PyStr.split PyStr.LF results in
  let _id := filter (λ line, PyStr.startswith line "JobID=" = true) resultArray in
  match _id with
  | [] => inl IndexError
  | line :: _ => inr (PyStr.replace line "JobID=" "")
  end.

(** ** Printing numbers and booleans *)

(** [str(n)] and ["%d" % n] for an integer. *)
Definition str_int (z : Z) : string := NilEmpty.string_of_int (Z.to_int z).

Definition str_nat (n : nat) : string := NilEmpty.string_of_uint (Nat.to_uint n).

(** [str(b)] for a boolean. *)
Definition str_bool (b : bool) : string := if b then "True" else "False".

(** ** The scene graph and the form *)

(** What the script reads from a Katana node. [dependencies] is the
    [dependencies] attribute of the last entry of
    [FarmAPI.GetSortedDependencies(node)]; [renderOutputLocations] lists
    [GetRenderOutputLocation(node, i)] for [i] below
    [GetNumRenderOutputs(node)]; [inputPortFiles] lists the
    [inputs.<port>.file] parameter of each input port; [farmStart] and
    [farmEnd] are the texts [%s] prints for the start and end of
    [farmSettings.activeFrameRange]. *)
Record Node := {
  getName : string;
  getType : string;
  isBypassed : bool;
  dependencies : list string;
  renderOutputLocations : list string;
  inputPortFiles : list string;
  farmStart : string;
  farmEnd : string
}.

Global Instance Node_eq_dec : EqDecision Node.
Proof. solve_decision. Defined.

Record Scene := {
  GetSourceFile : string;
  allNodes : list Node
}.

Definition GetAllNodesByType (sc : Scene) (ty : string) : list Node :=
  filter (λ n, getType n = ty) (allNodes sc).

Definition GetNode (sc : Scene) (name : string) : option Node :=
  head (filter (λ n, getName n = name) (allNodes sc)).

(** [deadline_katana.scene.get_output_nodes] *)
Definition get_output_nodes (sc : Scene) (include_image_write_nodes : bool) : list Node :=
  let nodes := GetAllNodesByType sc "Render" in
  let nodes := if include_image_write_nodes
               then nodes ++ GetAllNodesByType sc "ImageWrite" else nodes in
  filter (λ node, isBypassed node = false) nodes.

(** The widgets of the form, by the value the script reads from each. *)
Record Gui := {
  jobNameWidget : string;
  commentWidget : string;
  departmentWidget : string;
  poolsWidget : string;
  secondPoolsWidget : string;
  groupWidget : string;
  priorityBox : Z;
  taskTimeoutBox : Z;
  concurrentTasksWidget : Z;
  limitTasksSlaveLimit : bool;
  machineLimitWidget : Z;
  isBlackListWidget : bool;
  machineListWidget : string;
  limitsWidget : string;
  dependenciesWidget : string;
  frameDependent : bool;
  onJobCompleteWidget : string;
  submitSuspendedWidget : bool;
  framesPerTaskWidget : Z;
  frameRangeWidget : string;
  submitSceneBox : bool;
  useWorkingDirectory : bool;
  includeImageWrite : bool;
  renderSelectBox : string;
  renderNodeBox : string
}.

(** ** Effects *)

Inductive Event :=
| EPrint (text : string)
| EInformation (title text : string)
| EQuestion (title text : string)
| ESyncAllOutputPorts
| EMkdtemp (dir : string)
| ERmtree (dir : string)
| EWrite (filename contents : string)
| ERemove (filename : string)
| EPopen (arguments : list string).

Inductive StickyValue :=
| SText (s : string)
| SInt (z : Z)
| SBool (b : bool).

(** What the script takes from its surroundings: the iteration order of a
    Python [set], [submissionInfo], [os], [json], the file system, the
    user's answer to a question box, and the output of a spawned process.
    What depends on the moment is a function of the events so far. *)
Class Host := {
  set_to_list : list string → list string;
  set_to_list_NoDup : ∀ l, NoDup (set_to_list l);
  set_to_list_elem : ∀ l x, x ∈ set_to_list l ↔ x ∈ l;
  UserHomeDir : string;
  IntegrationMain : string;
  katana_version : Z;
  deadlineBin : string;
  os_getcwd : string;
  os_path_join : string → string → string;
  os_path_split : string → string * string;
  json_dumps : list (string * StickyValue) → string;
  sticky_write_fails : list Event → bool;
  format_exc : list Event → string;
  mkdtemp : list Event → string;
  file_lines : list Event → string → option (list string);
  question_yes : list Event → bool;
  popen_stdout : list Event → list string → string
}.

(** How a call of [SubmitPressed] ends; [OutOfFuel] stands for a loop cut
    off while still running. *)
Inductive Outcome := Returned | Raised (e : PyError) | OutOfFuel.

(** ** The dependency helpers *)

Section Submitter.

Context `{Host}.

(** [GetAllDependencyNames]: [list(set(dependencies))]. *)
Definition GetAllDependencyNames (renderNode : Node) : list string :=
  set_to_list (dependencies renderNode).

(** [RenderNodeReady]: [set(deps) <= set(dct.keys())]. *)
Definition RenderNodeReady (renderNode : Node) (dct : gmap string string) : bool :=
  let deps := GetAllDependencyNames renderNode in
  bool_decide ((list_to_set deps : gset string) ⊆ dom dct).

(** [GetDependentIDString]: [nodeIDDict[dep]] raises [KeyError] for a
    name that is not a key. *)
Fixpoint lookup_all (nodeIDDict : gmap string string) (deps : list string)
  : PyError + list string :=
  match deps with
  | [] => inr []
  | dep :: rest =>
      match nodeIDDict !! dep with
      | None => inl KeyError
      | Some id =>
          match lookup_all nodeIDDict rest with
          | inl e => inl e
          | inr ids => inr (id :: ids)
          end
      end
  end.

Definition GetDependentIDString (renderNode : Node) (nodeIDDict : gmap string string)
  : PyError + string :=
  let deps := GetAllDependencyNames renderNode in
  match lookup_all nodeIDDict deps with
  | inl e => inl e
  | inr ids => inr (PyStr.join "," ids)
  end.

Definition CheckIsPathLocal (path : string) : bool :=
  let lowerPath := PyStr.lower path in
  PyStr.startswith lowerPath "c:" || PyStr.startswith lowerPath "d:"
  || PyStr.startswith lowerPath "e:".

(** ** The job descriptor *)

(** The value of the [JobDependencies] line. *)
Definition JobDependencies (gui : Gui) (dependentIDs : string) : string :=
  if negb (String.length (dependenciesWidget gui) =? 0)%nat
     && negb (String.length dependentIDs =? 0)%nat
  then dependenciesWidget gui +:+ "," +:+ dependentIDs
  else if negb (String.eqb (dependenciesWidget gui) "")
       then dependenciesWidget gui else dependentIDs.

(** One [OutputFilename<i>] line per output, numbered from [i]. *)
Fixpoint output_entries (i : nat) (outputs : list string) : list (string * string) :=
  match outputs with
  | [] => []
  | output :: rest =>
      let '(tempPath, tempFileName) := os_path_split output in
      let tempFileName := GetPaddedPath tempFileName in
      let paddedPath := os_path_join tempPath tempFileName in
      ("OutputFilename" +:+ str_nat i, paddedPath) :: output_entries (S i) rest
  end.

(** The [Key=Value] lines the script itself writes into the job info
    file, as pairs, in the order written. *)
Definition job_info_entries (gui : Gui) (renderNode : Node) (currJob : Z)
    (dependentIDs : string) (totalJobs : Z) (framSettingOn : bool)
  : list (string * string) :=
  let jobName :=
    if (0 <=? currJob)%Z then jobNameWidget gui +:+ " - " +:+ getName renderNode
    else jobNameWidget gui in
  [ ("Plugin", "Katana");
    ("Name", jobName);
    ("Comment", commentWidget gui);
    ("Department", departmentWidget gui);
    ("Pool", poolsWidget gui);
    ("SecondaryPool", secondPoolsWidget gui);
    ("Group", groupWidget gui);
    ("Priority", str_int (priorityBox gui));
    ("TaskTimeoutMinutes", str_int (taskTimeoutBox gui));
    ("ConcurrentTasks", str_int (concurrentTasksWidget gui));
    ("LimitConcurrentTasksToNumberOfCpus", str_bool (limitTasksSlaveLimit gui));
    ("MachineLimit", str_int (machineLimitWidget gui));
    (if isBlackListWidget gui then "Blacklist" else "Whitelist", machineListWidget gui);
    ("LimitGroups", limitsWidget gui);
    ("JobDependencies", JobDependencies gui dependentIDs);
    ("IsFrameDependent", str_bool (frameDependent gui));
    ("OnJobComplete", onJobCompleteWidget gui) ]
  ++ (if submitSuspendedWidget gui then [("InitialStatus", "Suspended")] else [])
  ++ [ ("ChunkSize", str_int (framesPerTaskWidget gui));
       ("Frames", if framSettingOn
                  then farmStart renderNode +:+ "-" +:+ farmEnd renderNode
                  else frameRangeWidget gui) ]
  ++ (if (1 <? totalJobs)%Z then [("BatchName", jobNameWidget gui)] else [])
  ++ (if String.eqb (getType renderNode) "Render"
      then output_entries 0 (renderOutputLocations renderNode)
      else if String.eqb (getType renderNode) "ImageWrite"
           then output_entries 0 (inputPortFiles renderNode)
           else []).

(** [fileHandle.write("%s=%s\n" % (key, value))] *)
Definition write_line (kv : string * string) : string :=
  kv.1 +:+ "=" +:+ kv.2 +:+ PyStr.nl.

Fixpoint concat_strings (l : list string) : string :=
  match l with
  | [] => ""
  | x :: rest => x +:+ concat_strings rest
  end.

Definition job_info_text (gui : Gui) (renderNode : Node) (currJob : Z)
    (dependentIDs : string) (totalJobs : Z) (framSettingOn : bool) : string :=
  concat_strings
    (write_line <$> job_info_entries gui renderNode currJob dependentIDs
                       totalJobs framSettingOn).

Definition plugin_info_entries (gui : Gui) (scene : string) (renderNode : Node)
  : list (string * string) :=
  (if negb (submitSceneBox gui) then [("KatanaFile", scene)] else [])
  ++ [ ("Version", str_int katana_version);
       ("WorkingDirectory", if useWorkingDirectory gui then os_getcwd else "");
       ("RenderNode", getName renderNode) ].

Definition plugin_info_text (gui : Gui) (scene : string) (renderNode : Node) : string :=
  concat_strings (write_line <$> plugin_info_entries gui scene renderNode).

(** ** The external command *)

Definition GetDeadlineCommand : string := os_path_join deadlineBin "deadlinecommand".

(** [CallDeadlineCommand] as the submitter calls it: [useDeadlineBg] and
    [raiseOnExitCode] are left at [False]; [hideWindow] does not change
    what is run; the removal of the temporary directory is taken to
    succeed. *)
Definition CallDeadlineCommand (arguments : list string) (useArgFile : bool)
    (tr : list Event) : string * list Event :=
  let deadlineCommand := GetDeadlineCommand in
  if useArgFile then
    let tmpdir := mkdtemp tr in
    let tmpFile := os_path_join tmpdir "args.txt" in
    let tr := tr ++ [EMkdtemp tmpdir; EWrite tmpFile (PyStr.join PyStr.nl arguments)] in
    let arguments := [deadlineCommand; tmpFile] in
    let output := popen_stdout tr arguments in
    (PyStr.strip output, tr ++ [EPopen arguments; ERmtree tmpdir])
  else
    let arguments := deadlineCommand :: arguments in
    let output := popen_stdout tr arguments in
    (PyStr.strip output, tr ++ [EPopen arguments]).

Definition ConcatenatePipelineSettingsToJob (scenePath jobInfoPath batchName : string)
    (tr : list Event) : list Event :=
  let jobWriterPath := os_path_join IntegrationMain "JobWriter.py" in
  let argArray := ["-ExecuteScript"; jobWriterPath; "Katana"; "--write";
                   "--scene-path"; scenePath; "--job-path"; jobInfoPath;
                   "--batch-name"; batchName] in
  (CallDeadlineCommand argArray false tr).2.

(** [WriteJobFilesAndSubmit].  [integrationInfoKeyValues] is the empty
    dictionary throughout the script, so the integration settings file
    has its default name and [groupBatch] stays [False]. *)
Definition WriteJobFilesAndSubmit (gui : Gui) (scene : string) (submitScene : bool)
    (renderNode : Node) (currJob : Z) (dependentIDs : string) (totalJobs : Z)
    (framSettingOn : bool) (tr : list Event) : string * list Event :=
  let deadlineHome := PyStr.strip UserHomeDir in
  let deadlineTemp := os_path_join deadlineHome "temp" in
  let jobFile := if (0 <=? currJob)%Z
                 then "katana_job_info" +:+ str_int currJob +:+ ".job"
                 else "katana_job_info.job" in
  let jobInfoFilename := os_path_join deadlineTemp jobFile in
  let integrationSettingsFilename :=
    os_path_join deadlineTemp "KatanaIntegrationSettings.txt" in
  let jobInfo :=
    job_info_text gui renderNode currJob dependentIDs totalJobs framSettingOn in
  let tr :=
    match file_lines tr integrationSettingsFilename with
    | Some data =>
        tr ++ [ERemove integrationSettingsFilename;
               EWrite jobInfoFilename (jobInfo +:+ concat_strings data)]
    | None => tr ++ [EWrite jobInfoFilename jobInfo]
    end in
  let pluginFile := if (0 <=? currJob)%Z
                    then "katana_plugin_info" +:+ str_int currJob +:+ ".job"
                    else "katana_plugin_info.job" in
  let pluginInfoFilename := os_path_join deadlineTemp pluginFile in
  let pluginInfo := plugin_info_text gui scene renderNode in
  let tr := tr ++ [EWrite pluginInfoFilename pluginInfo] in
  let tr := ConcatenatePipelineSettingsToJob scene jobInfoFilename (jobNameWidget gui) tr in
  let arguments := [jobInfoFilename; pluginInfoFilename]
                   ++ (if submitScene then [scene] else []) in
  CallDeadlineCommand arguments true tr.

(** ** Sticky settings *)

(** The dictionary [WriteStickySettings] builds from
    [stickySettingWidgets] and [stickyWidgetSaveFunctions]. *)
Definition stickySettings (gui : Gui) : list (string * StickyValue) :=
  [ ("Department", SText (departmentWidget gui));
    ("Comment", SText (commentWidget gui));
    ("Pool", SText (poolsWidget gui));
    ("SecondaryPool", SText (secondPoolsWidget gui));
    ("Group", SText (groupWidget gui));
    ("Priority", SInt (priorityBox gui));
    ("TaskTimeout", SInt (taskTimeoutBox gui));
    ("ConcurrentTasks", SInt (concurrentTasksWidget gui));
    ("LimitConcurrentTasksToNumberOfCpus", SBool (limitTasksSlaveLimit gui));
    ("MachineLimit", SInt (machineLimitWidget gui));
    ("IsBlacklist", SBool (isBlackListWidget gui));
    ("MachineList", SText (machineListWidget gui));
    ("LimitGroups", SText (limitsWidget gui));
    ("OnJobComplete", SText (onJobCompleteWidget gui));
    ("InitialStatus", SBool (submitSuspendedWidget gui));
    ("SubmitScene", SBool (submitSceneBox gui));
    ("UseWorkingDirectory", SBool (useWorkingDirectory gui));
    ("IncludeImageWrite", SBool (includeImageWrite gui));
    ("IsFrameDependent", SBool (frameDependent gui)) ].

Definition GetStickySettingsFilePath : string :=
  let deadlineHome := PyStr.strip UserHomeDir in
  os_path_join (os_path_join deadlineHome "settings") "katana_sticky.json".

Definition WriteStickySettings (gui : Gui) (tr : list Event) : list Event :=
  let tr := tr ++ [EPrint "Writing sticky settings..."] in
  let configFile := GetStickySettingsFilePath in
  let fileContents := json_dumps (stickySettings gui) in
  if sticky_write_fails tr
  then tr ++ [EPrint "Could not write sticky settings"; EPrint (format_exc tr)]
  else tr ++ [EWrite configFile fileContents].

(** ** The submission loop of [SubmitPressed] *)

(** The variables of the loop, the trace, and [submitted]: the nodes
    handed to [WriteJobFilesAndSubmit] so far, oldest first.  [submitted]
    is a record of the calls, not a variable of the script. *)
Record LoopState := {
  items : list Node;
  currNode : nat;
  nodeToID : gmap string string;
  currJob : Z;
  jobResults : string;
  trace : list Event;
  submitted : list Node
}.

Inductive Step :=
| Continue (st : LoopState)
| Done (st : LoopState)
| Raise (e : PyError) (st : LoopState).

(** [items.remove(x)]: the first element equal to [x] goes. *)
Fixpoint list_remove (x : Node) (l : list Node) : list Node :=
  match l with
  | [] => []
  | y :: rest => if decide (x = y) then rest else y :: list_remove x rest
  end.

Section Loop.

Variables (gui : Gui) (scene : string) (submitScene : bool) (numJobs : Z).

(** The state after [currNode += 1]. *)
Definition next_node (st : LoopState) : LoopState :=
  {| items := items st; currNode := S (currNode st);
     nodeToID := nodeToID st; currJob := currJob st;
     jobResults := jobResults st; trace := trace st;
     submitted := submitted st |}.

(** The state once [WriteJobFilesAndSubmit] has returned for [node] and
    [currJob] has been incremented. *)
Definition after_call (st : LoopState) (node : Node) (tr : list Event) : LoopState :=
  {| items := items st; currNode := currNode st;
     nodeToID := nodeToID st; currJob := (currJob st + 1)%Z;
     jobResults := jobResults st; trace := tr;
     submitted := submitted st ++ [node] |}.

(** The state at the end of the branch that submits [node]. *)
Definition after_submit (st : LoopState) (node : Node) (jobID currResult : string)
    (tr : list Event) : LoopState :=
  {| items := list_remove node (items st); currNode := 0;
     nodeToID := <[getName node := jobID]> (nodeToID st);
     currJob := (currJob st + 1)%Z;
     jobResults := jobResults st +:+ currResult;
     trace := tr;
     submitted := submitted st ++ [node] |}.

(** One turn of [while not done]. *)
Definition loop_body (st : LoopState) : Step :=
  match items st !! currNode st with
  | None => Raise IndexError st
  | Some node =>
      if RenderNodeReady node (nodeToID st) then
        match GetDependentIDString node (nodeToID st) with
        | inl e => Raise e st
        | inr dependentIDs =>
            let '(currResult, tr) :=
              WriteJobFilesAndSubmit gui scene submitScene node (currJob st)
                dependentIDs numJobs true (trace st) in
            match GetJobIDFromJobResults currResult with
            | inl e => Raise e (after_call st node tr)
            | inr jobID =>
                let st' := after_submit st node jobID currResult tr in
                if (length (items st') =? 0)%nat then Done st' else Continue st'
            end
        end
      else Continue (next_node st)
  end.

(** The loop, cut off after [fuel] turns: [Continue] as the result
    means the fuel ran out with the loop still running. *)
Fixpoint run_loop (fuel : nat) (st : LoopState) : Step :=
  match fuel with
  | O => Continue st
  | S k =>
      match loop_body st with
      | Continue st' => run_loop k st'
      | r => r
      end
  end.

(** The state in which turn number [k] of the loop starts, when the loop
    runs that long. *)
Fixpoint state_after (k : nat) (st : LoopState) : option LoopState :=
  match k with
  | O => Some st
  | S k' =>
      match loop_body st with
      | Continue st' => state_after k' st'
      | _ => None
      end
  end.

(** The turns of the loop, case by case. *)
Inductive turn (st : LoopState) : Step → Prop :=
| turn_past_end :
    items st !! currNode st = None →
    turn st (Raise IndexError st)
| turn_skip node :
    items st !! currNode st = Some node →
    RenderNodeReady node (nodeToID st) = false →
    turn st (Continue (next_node st))
| turn_no_ids node e :
    items st !! currNode st = Some node →
    RenderNodeReady node (nodeToID st) = true →
    GetDependentIDString node (nodeToID st) = inl e →
    turn st (Raise e st)
| turn_no_job_id node dependentIDs currResult tr e :
    items st !! currNode st = Some node →
    RenderNodeReady node (nodeToID st) = true →
    GetDependentIDString node (nodeToID st) = inr dependentIDs →
    WriteJobFilesAndSubmit gui scene submitScene node (currJob st)
      dependentIDs numJobs true (trace st) = (currResult, tr) →
    GetJobIDFromJobResults currResult = inl e →
    turn st (Raise e (after_call st node tr))
| turn_submit_last node dependentIDs currResult tr jobID :
    items st !! currNode st = Some node →
    RenderNodeReady node (nodeToID st) = true →
    GetDependentIDString node (nodeToID st) = inr dependentIDs →
    WriteJobFilesAndSubmit gui scene submitScene node (currJob st)
      dependentIDs numJobs true (trace st) = (currResult, tr) →
    GetJobIDFromJobResults currResult = inr jobID →
    list_remove node (items st) = [] →
    turn st (Done (after_submit st node jobID currResult tr))
| turn_submit_more node dependentIDs currResult tr jobID :
    items st !! currNode st = Some node →
    RenderNodeReady node (nodeToID st) = true →
    GetDependentIDString node (nodeToID st) = inr dependentIDs →
    WriteJobFilesAndSubmit gui scene submitScene node (currJob st)
      dependentIDs numJobs true (trace st) = (currResult, tr) →
    GetJobIDFromJobResults currResult = inr jobID →
    list_remove node (items st) ≠ [] →
    turn st (Continue (after_submit st node jobID currResult tr)).

Definition loop_init (nodes : list Node) (tr : list Event) : LoopState :=
  {| items := nodes; currNode := 0; nodeToID := ∅; currJob := 0;
     jobResults := ""; trace := tr; submitted := [] |}.

End Loop.

Definition state_of (r : Step) : LoopState :=
  match r with Continue st | Done st | Raise _ st => st end.

(** ** [SubmitPressed] *)

Definition results_box (numJobs : nat) (jobResults : string) (tr : list Event)
  : list Event :=
  let resultOutput := "Done submitting " +:+ str_nat numJobs +:+ " job(s)." in
  if (numJobs =? 1)%nat then
    tr ++ [EInformation "Submission Results" (resultOutput +:+ PyStr.nl +:+ jobResults)]
  else
    tr ++ [EPrint jobResults;
           EInformation "Submission Results"
             (resultOutput +:+ PyStr.nl
              +:+ "Please consult the Katana command-line log for complete details.")].

(** What follows the pre-flight checks and the question about a local
    scene.  When [NodegraphAPI.GetNode] finds no node of the chosen name,
    [WriteJobFilesAndSubmit] fails at [renderNode.getType()]; the part of
    the job info file written before that is not recorded in the trace. *)
Definition submit_jobs (fuel : nat) (gui : Gui) (sc : Scene) (scene : string)
    (nodes : list Node) (submitScene : bool) (tr : list Event)
  : Outcome * list Event :=
  let renderNodeSelection := renderSelectBox gui in
  let tr := tr ++ [ESyncAllOutputPorts] in
  if String.eqb renderNodeSelection "Select Render Node" then
    match GetNode sc (renderNodeBox gui) with
    | None => (Raised AttributeError, tr)
    | Some renderNode =>
        let '(jobResults, tr) :=
          WriteJobFilesAndSubmit gui scene submitScene renderNode (-1) "" 1 false tr in
        (Returned, results_box 1 jobResults tr)
    end
  else if String.eqb renderNodeSelection "Submit All Render Nodes As Separate Jobs" then
    match run_loop gui scene submitScene (Z.of_nat (length nodes)) fuel
            (loop_init nodes tr) with
    | Continue st => (OutOfFuel, trace st)
    | Raise e st => (Raised e, trace st)
    | Done st => (Returned, results_box (length nodes) (jobResults st) (trace st))
    end
  else (Returned, results_box 1 "" tr).

Definition SubmitPressed (fuel : nat) (gui : Gui) (sc : Scene) (tr : list Event)
  : Outcome * list Event :=
  let tr := tr ++ [EPrint "Submitting Katana Render Job(s) To Deadline..."] in
  let tr := WriteStickySettings gui tr in
  let scene := GetSourceFile sc in
  if String.eqb scene "" then
    (Returned,
     tr ++ [EInformation "No Scene File Found"
              "No Katana file has been set. Please save your work and reopen the submitter."])
  else
    let nodes := get_output_nodes sc (includeImageWrite gui) in
    if (length nodes =? 0)%nat then
      (Returned,
       tr ++ [EInformation "No Output Nodes"
                "No enabled Render or ImageWrite nodes found in project file. Ensure project file contains at least one such node."])
    else
      let frames := frameRangeWidget gui in
      if String.eqb frames "" then
        (Returned,
         tr ++ [EInformation "No Frame Range Specified"
                  "No Frame Range been set. Please specify at least one frame to render."])
      else
        let submitScene := submitSceneBox gui in
        if negb submitScene && CheckIsPathLocal scene then
          let tr := tr ++ [EQuestion "Local Katana Scene Submission"
                             "The Katana scene is local and is not being submitted with the job. Deadline Workers may not be able to find the Katana file. Do you wish to submit anyway?"] in
          if question_yes tr
          then submit_jobs fuel gui sc scene nodes submitScene tr
          else (Returned, tr)
        else submit_jobs fuel gui sc scene nodes submitScene tr.

End Submitter.

(** ** Reading a descriptor back *)

Definition CR : ascii := "013"%char.





(** The arguments of the processes a trace has spawned. *)
Definition spawned (tr : list Event) : list (list string) :=
  omap (λ e, match e with EPopen arguments => Some arguments | _ => None end) tr.

(** ** Dependency graphs *)

(** [depends_on nodes a b]: a node of [nodes] named [a] lists [b] among
    its dependencies. *)
Definition depends_on (nodes : list Node) (a b : string) : Prop :=
  ∃ n, n ∈ nodes ∧ getName n = a ∧ b ∈ dependencies n.

Definition acyclic (nodes : list Node) : Prop :=
  ∀ a, ¬ tc (depends_on nodes) a a.

(** Every dependency name is the name of a node of the list. *)
Definition deps_in_list (nodes : list Node) : Prop :=
  Forall (λ n, Forall (λ d, d ∈ (getName <$> nodes)) (dependencies n)) nodes.

(** A set of names none of which can ever be submitted: every node of the
    list with a name in the set waits for a name in the set. *)
Definition blocked (nodes : list Node) (S : list string) : Prop :=
  Forall (λ n, getName n ∈ S → Exists (λ d, d ∈ S) (dependencies n)) nodes.

(** A numbering of the names that decreases along every dependency. *)
Definition ranked (rank : string → nat) (nodes : list Node) : Prop :=
  Forall (λ n, Forall (λ d, rank d < rank (getName n)) (dependencies n)) nodes.

(** ** A concrete host *)

Module Posix.

Fixpoint all_slashes (s : string) : bool :=
  match s with
  | "" => true
  | String a s' => Ascii.eqb a "/"%char && all_slashes s'
  end.

Fixpoint rstrip_slashes (s : string) : string :=
  match s with
  | "" => ""
  | String a s' =>
      match rstrip_slashes s' with
      | "" => if Ascii.eqb a "/"%char then "" else String a ""
      | t => String a t
      end
  end.

Fixpoint ends_with_slash (s : string) : bool :=
  match s with
  | "" => false
  | String a "" => Ascii.eqb a "/"%char
  | String _ s' => ends_with_slash s'
  end.

(** [posixpath.join] of two components. *)
Definition join (a b : string) : string :=
  if PyStr.startswith b "/" then b
  else if String.eqb a "" || ends_with_slash a then a +:+ b
       else a +:+ "/" +:+ b.

(** [posixpath.split] *)
Definition split (p : string) : string * string :=
  match PyStr.rpartition "/" p with
  | None => ("", p)
  | Some (l, r) =>
      let head := l +:+ "/" in
      (if all_slashes head then head else rstrip_slashes head, r)
  end.

(** A host on which sets iterate in first-seen order and every process
    prints a job id. *)
Global Program Instance host : Host := {|
  set_to_list := remove_dups;
  UserHomeDir := "/home/artist/Thinkbox/Deadline10";
  IntegrationMain := "/repo/submission/Integration/Main";
  katana_version := 3;
  deadlineBin := "/opt/Thinkbox/Deadline10/bin";
  os_getcwd := "/work";
  os_path_join := join;
  os_path_split := split;
  json_dumps := λ _, "{}";
  sticky_write_fails := λ _, false;
  format_exc := λ _, "";
  mkdtemp := λ _, "/tmp/tmpdl";
  file_lines := λ _ _, None;
  question_yes := λ _, true;
  popen_stdout := λ _ _, "Result=Success" +:+ PyStr.nl +:+ "JobID=5f3a9c"
|}.
Next Obligation. apply NoDup_remove_dups. Qed.
Next Obligation. intros. apply elem_of_remove_dups. Qed.

End Posix.

(** ** What the loop keeps true *)

(** Every call of [WriteJobFilesAndSubmit] by the loop returns an output
    with a [JobID=] line. *)
Definition submissions_succeed `{Host} (gui : Gui) (scene : string)
    (submitScene : bool) (numJobs : Z) : Prop :=
  ∀ node currJob dependentIDs tr,
    ∃ jobID,
      GetJobIDFromJobResults
        (WriteJobFilesAndSubmit gui scene submitScene node currJob dependentIDs
           numJobs true tr).1 = inr jobID.

(** In the order of submission every node comes after the nodes it
    depends on. *)
Definition dependencies_first (order : list Node) : Prop :=
  ∀ i n d, order !! i = Some n → d ∈ dependencies n →
    ∃ j m, j < i ∧ order !! j = Some m ∧ getName m = d.

(** The submitted and the waiting nodes together are the nodes the loop
    started with, the keys of [nodeToID] are the names of the submitted
    nodes, and these were submitted dependencies first. *)
Definition loop_inv `{Host} (nodes : list Node) (st : LoopState) : Prop :=
  submitted st ++ items st ≡ₚ nodes
  ∧ dom (nodeToID st) = list_to_set (getName <$> submitted st)
  ∧ dependencies_first (submitted st).

(** The nodes before [currNode] were found not ready in this scan. *)
Definition scan_inv `{Host} (st : LoopState) : Prop :=
  ∀ i n, i < currNode st → items st !! i = Some n →
    RenderNodeReady n (nodeToID st) = false.

(** The number of turns left is below [loop_measure]. *)
Definition loop_measure `{Host} (st : LoopState) : nat :=
  length (items st) * (length (items st) + 2)
  + (length (items st) + 1 - currNode st).

(** A walk along [R], newest name first. *)
Inductive rpath (R : relation string) : list string → Prop :=
| rpath_one a : rpath R [a]
| rpath_cons b a p : R a b → rpath R (a :: p) → rpath R (b :: a :: p).

(** ** Example data *)

Definition render_node (name : string) (deps : list string) : Node :=
  {| getName := name; getType := "Render"; isBypassed := false;
     dependencies := deps;
     renderOutputLocations := ["/shows/demo/" +:+ name +:+ ".0001.exr"];
     inputPortFiles := []; farmStart := "1"; farmEnd := "24" |}.

Definition two_jobs : gmap string string :=
  <["Render1" := "123"]> (<["Render2" := "124"]> ∅).

Definition form (comment : string) : Gui :=
  {| jobNameWidget := "shot010"; commentWidget := comment;
     departmentWidget := "lighting";
     poolsWidget := "none"; secondPoolsWidget := ""; groupWidget := "none";
     priorityBox := 50; taskTimeoutBox := 0; concurrentTasksWidget := 1;
     limitTasksSlaveLimit := true; machineLimitWidget := 0;
     isBlackListWidget := false; machineListWidget := ""; limitsWidget := "";
     dependenciesWidget := ""; frameDependent := false;
     onJobCompleteWidget := "Nothing"; submitSuspendedWidget := false;
     framesPerTaskWidget := 1; frameRangeWidget := "1-24";
     submitSceneBox := true; useWorkingDirectory := false;
     includeImageWrite := false;
     renderSelectBox := "Submit All Render Nodes As Separate Jobs";
     renderNodeBox := "" |}.

Definition demo_gui : Gui := form "first pass".

Definition unsaved_scene : Scene :=
  {| GetSourceFile := ""; allNodes := [render_node "beauty" []] |}.

Definition saved_scene (nodes : list Node) : Scene :=
  {| GetSourceFile := "/shows/demo/shot010.katana"; allNodes := nodes |}.

(** [comp] waits for [beauty] and [shadow], [shadow] waits for [beauty]. *)
Definition layered_nodes : list Node :=
  [ render_node "comp" ["beauty"; "shadow"];
    render_node "beauty" [];
    render_node "shadow" ["beauty"] ].

Definition layered_rank (name : string) : nat :=
  if decide (name = "beauty") then 0
  else if decide (name = "shadow") then 1 else 2.

(** [fg] and [bg] wait for each other. *)
Definition cyclic_nodes : list Node :=
  [ render_node "fg" ["bg"]; render_node "bg" ["fg"] ].

(** ** Runs of hash characters *)

Fixpoint hash_run (n : nat) : string :=
  match n with
  | O => ""
  | S k => String "#" (hash_run k)
  end.

(** ** Characters a key must not hold *)


(** ** Digits in a string *)

Fixpoint string_forall (p : ascii → bool) (s : string) : bool :=
  match s with
  | "" => true
  | String a s' => p a && string_forall p s'
  end.

Definition all_digits (s : string) : bool := string_forall PyStr.isdigit s.

Definition no_digits (s : string) : bool :=
  string_forall (λ c, negb (PyStr.isdigit c)) s.

(** A character of the path and the character [GetPaddedPath] may leave in
    its place. *)
Definition padded_char (a b : ascii) : Prop :=
  a = b ∨ (PyStr.isdigit a = true ∧ b = "#"%char).

(** ** The external command with all its options *)

(** [subprocess.CalledProcessError(returncode, cmd, output)] *)
Record CalledProcessError := {
  exc_returncode : Z;
  exc_cmd : string;
  exc_output : string
}.

(** More of the surroundings: the exit code of a spawned process, the text
    of a file, whether [shutil.rmtree] fails, [pipes.quote] and
    [os.linesep]. *)
Class Shell := {
  popen_returncode : list Event → list string → Z;
  read_text : list Event → string → string;
  rmtree_fails : list Event → string → bool;
  shell_quote : string → string;
  os_linesep : string
}.

Definition DQUOTE : string := String "034"%char "".

Section Commands.

Context `{Host} `{Shell}.

(** [GetDeadlineCommand(useDeadlineBg)]; [deadlineBin] is the directory
    that the environment variable or the fallback file gives. *)
Definition GetDeadlineCommand_with (useDeadlineBg : bool) : string :=
  let exeName := "deadlinecommand" in
  let exeName := if useDeadlineBg then exeName +:+ "bg" else exeName in
  os_path_join deadlineBin exeName.

Definition CreateArgFile (arguments : list string) (tmpDir : string)
    (tr : list Event) : string * list Event :=
  let tmpFile := os_path_join tmpDir "args.txt" in
  (tmpFile, tr ++ [EWrite tmpFile (PyStr.join PyStr.nl arguments)]).

(** [output.strip()] on the text read back from [dlout.txt], which is a
    unicode string: among the characters below 256 it also removes the
    separators 28 to 31, the next-line character and the no-break space. *)
Definition isspace_unicode (c : ascii) : bool :=
  let n := nat_of_ascii c in
  PyStr.isspace c || ((28 <=? n)%nat && (n <=? 31)%nat)
  || (n =? 133)%nat || (n =? 160)%nat.

Fixpoint lstrip_unicode (s : string) : string :=
  match s with
  | "" => ""
  | String a s' => if isspace_unicode a then lstrip_unicode s' else s
  end.

Fixpoint rstrip_unicode (s : string) : string :=
  match s with
  | "" => ""
  | String a s' =>
      match rstrip_unicode s' with
      | "" => if isspace_unicode a then "" else String a ""
      | t => String a t
      end
  end.

Definition strip_unicode (s : string) : string := rstrip_unicode (lstrip_unicode s).

(** [CallDeadlineCommand] with every option.  [hideWindow] only chooses
    the window flags of the process on Windows.  [tmpdir] is set whenever
    [useArgFile] or [useDeadlineBg] is, the only cases in which it is
    used.  The standard output of the process is a byte string, the text
    of [dlout.txt] is decoded. *)
Definition CallDeadlineCommand_full (arguments : list string)
    (hideWindow useArgFile useDeadlineBg raiseOnExitCode : bool) (tr : list Event)
  : (CalledProcessError + string) * list Event :=
  let deadlineCommand := GetDeadlineCommand_with useDeadlineBg in
  let tmpdir := if useArgFile || useDeadlineBg then Some (mkdtemp tr) else None in
  let tr := match tmpdir with Some d => tr ++ [EMkdtemp d] | None => tr end in
  let arguments :=
    if useDeadlineBg
    then ["-outputfiles"; os_path_join (default "" tmpdir) "dlout.txt";
          os_path_join (default "" tmpdir) "dlexit.txt"] ++ arguments
    else arguments in
  let '(arguments, tr) :=
    if useArgFile
    then let '(argFile, tr) := CreateArgFile arguments (default "" tmpdir) tr in
         ([argFile], tr)
    else (arguments, tr) in
  let arguments := deadlineCommand :: arguments in
  let output := popen_stdout tr arguments in
  let returncode := popen_returncode tr arguments in
  let tr := tr ++ [EPopen arguments] in
  if raiseOnExitCode && negb (returncode =? 0)%Z then
    (inl {| exc_returncode := returncode;
            exc_cmd := PyStr.join " " (shell_quote <$> arguments);
            exc_output := output |}, tr)
  else
    let output :=
      if useDeadlineBg
      then read_text tr (os_path_join (default "" tmpdir) "dlout.txt")
      else output in
    let tr :=
      match tmpdir with
      | Some d =>
          if rmtree_fails tr d
          then tr ++ [EPrint ("Failed to remove temp directory: " +:+ DQUOTE +:+ d
                              +:+ DQUOTE)]
          else tr ++ [ERmtree d]
      | None => tr
      end in
    (inr (if useDeadlineBg then strip_unicode output else PyStr.strip output), tr).

(** The body shared by [BrowseMachineList], [BrowseLimitList] and
    [BrowseDependencyList]: the new text of the field and the trace. *)
Definition browse_list (flag text : string) (tr : list Event)
  : (CalledProcessError + string) * list Event :=
  match CallDeadlineCommand_full [flag; text] false true true false tr with
  | (inl e, tr) => (inl e, tr)
  | (inr output, tr) =>
      let output := PyStr.replace (PyStr.replace output (String CR "") "") PyStr.nl "" in
      if String.eqb output "Action was cancelled by user"
      then (inr text, tr) else (inr output, tr)
  end.

Definition BrowseMachineList (machineList : string) (tr : list Event) :=
  browse_list "-selectmachinelist" machineList tr.

Definition BrowseLimitList (limits : string) (tr : list Event) :=
  browse_list "-selectlimitgroups" limits tr.

Definition BrowseDependencyList (dependencies : string) (tr : list Event) :=
  browse_list "-selectdependencies" dependencies tr.

(** ** Pipeline tools *)

(** [HandlePipelineToolsCalledProcessError]: the status it returns, the
    modal dialog it shows (title and text) and the trace. *)
Definition HandlePipelineToolsCalledProcessError (exc : CalledProcessError)
    (tr : list Event) : string * (string * string) * list Event :=
  let errorMsg :=
    "Pipeline Tools encountered an error - the command:"
    +:+ os_linesep +:+ os_linesep
    +:+ exc_cmd exc
    +:+ os_linesep +:+ os_linesep
    +:+ "return a non-zero (" +:+ str_int (exc_returncode exc) +:+ ") exit code" in
  let errorMsg :=
    if String.eqb (exc_output exc) "" then errorMsg
    else errorMsg +:+ " and the following output:"
         +:+ os_linesep +:+ os_linesep +:+ exc_output exc in
  ("Pipeline Tools Error",
   ("Pipeline Tools Error",
    "Pipeline Tools encountered an error. Check the Katana console for more detailed information."),
   tr ++ [EPrint errorMsg]).

Inductive SceneNotSavedError := SceneNotSaved.

(** [OpenIntegrationWindow], the definition that is in force (the later of
    the two): the status or the error, the dialogs shown, the trace.  The
    command is always run with [raiseOnExitCode=True]. *)
Definition OpenIntegrationWindow (raiseOnExitCode : bool) (sc : Scene)
    (tr : list Event)
  : (SceneNotSavedError + string) * list (string * string) * list Event :=
  let integrationPath := os_path_join IntegrationMain "IntegrationUIStandAlone.py" in
  let scenePath := GetSourceFile sc in
  if String.eqb scenePath "" then (inl SceneNotSaved, [], tr)
  else
    let argArray := ["-ExecuteScript"; integrationPath; "-v"; "2"; "-d"; "Katana";
                     "Draft"; "Shotgun"; "FTrack"; "--path"; scenePath] in
    match CallDeadlineCommand_full argArray false false false true tr with
    | (inr pipelineToolStatus, tr) => (inr pipelineToolStatus, [], tr)
    | (inl e, tr) =>
        let '(pipelineToolStatus, dialog, tr) :=
          HandlePipelineToolsCalledProcessError e tr in
        (inr pipelineToolStatus, [dialog], tr)
    end.

(** [PipelineToolsClicked]: the text of the status label afterwards, the
    dialogs shown and the trace. *)
Definition PipelineToolsClicked (statusLabel : string) (sc : Scene) (tr : list Event)
  : string * list (string * string) * list Event :=
  match OpenIntegrationWindow true sc tr with
  | (inl SceneNotSaved, dialogs, tr) =>
      (statusLabel, dialogs ++ [("Pipeline Tools Error", "Scene not saved")], tr)
  | (inr pipelineToolStatus, dialogs, tr) => (pipelineToolStatus, dialogs, tr)
  end.

End Commands.


Definition failing_shell : Shell :=
  {| popen_returncode := λ _ _, 1%Z;
     read_text := λ _ _, "";
     rmtree_fails := λ _ _, false;
     shell_quote := λ s, s;
     os_linesep := PyStr.nl |}.

(** ** More about the loop *)

(** The turns [SubmitPressed] needs at most for [n] nodes. *)
Definition submit_all_bound (n : nat) : nat := n * (n + 2) + (n + 1).


(** A host like [Posix.host] on which the user answers no. *)
Definition declining_host : Host :=
  {| set_to_list := remove_dups;
     set_to_list_NoDup := NoDup_remove_dups;
     set_to_list_elem := λ l x, elem_of_remove_dups l x;
     UserHomeDir := "/home/artist/Thinkbox/Deadline10";
     IntegrationMain := "/repo/submission/Integration/Main";
     katana_version := 3;
     deadlineBin := "/opt/Thinkbox/Deadline10/bin";
     os_getcwd := "/work";
     os_path_join := Posix.join;
     os_path_split := Posix.split;
     json_dumps := λ _, "{}";
     sticky_write_fails := λ _, false;
     format_exc := λ _, "";
     mkdtemp := λ _, "/tmp/tmpdl";
     file_lines := λ _ _, None;
     question_yes := λ _, false;
     popen_stdout := λ _ _, "Result=Success" +:+ PyStr.nl +:+ "JobID=5f3a9c" |}.

Definition local_scene (nodes : list Node) : Scene :=
  {| GetSourceFile := "C:/shows/demo/shot010.katana"; allNodes := nodes |}.

Definition unsubmitted_scene_gui : Gui :=
  {| jobNameWidget := "shot010"; commentWidget := "";
     departmentWidget := "lighting";
     poolsWidget := "none"; secondPoolsWidget := ""; groupWidget := "none";
     priorityBox := 50; taskTimeoutBox := 0; concurrentTasksWidget := 1;
     limitTasksSlaveLimit := true; machineLimitWidget := 0;
     isBlackListWidget := false; machineListWidget := ""; limitsWidget := "";
     dependenciesWidget := ""; frameDependent := false;
     onJobCompleteWidget := "Nothing"; submitSuspendedWidget := false;
     framesPerTaskWidget := 1; frameRangeWidget := "1-24";
     submitSceneBox := false; useWorkingDirectory := false;
     includeImageWrite := false;
     renderSelectBox := "Select Render Node";
     renderNodeBox := "beauty" |}.

(** * Properties *)

(** ** Strings *)

Lemma append_cons (a : ascii) (s t : string) : String a s +:+ t = String a (s +:+ t).
Proof. reflexivity. Qed.

Lemma append_nil_l (t : string) : "" +:+ t = t.
Proof. reflexivity. Qed.

Lemma append_nil_r (s : string) : s +:+ "" = s.
Proof. induction s as [|a s IH]; [done|]. by rewrite append_cons, IH. Qed.

Lemma string_app_assoc (s t u : string) : (s +:+ t) +:+ u = s +:+ t +:+ u.
Proof.
  induction s as [|a s IH]; [done|]. by rewrite !append_cons, IH.
Qed.

Lemma length_append (s t : string) :
  String.length (s +:+ t) = String.length s + String.length t.
Proof. induction s as [|a s IH]; [done|]. rewrite append_cons. cbn. by rewrite IH. Qed.

Lemma prefix_append (old r : string) : String.prefix old (old +:+ r) = true.
Proof.
  induction old as [|a old IH]; [by destruct r|].
  rewrite append_cons. cbn. by destruct (ascii_dec a a).
Qed.

Lemma prefix_drop (old s : string) :
  String.prefix old s = true → s = old +:+ PyStr.drop (String.length old) s.
Proof.
  revert s. induction old as [|a old IH]; intros s Hpre; [done|].
  destruct s as [|b s]; [done|]. cbn in Hpre.
  destruct (ascii_dec a b) as [->|]; [|done].
  rewrite append_cons. cbn. f_equal. by apply IH.
Qed.

Lemma join_cons (sep x y : string) (rest : list string) :
  PyStr.join sep (x :: y :: rest) = x +:+ sep +:+ PyStr.join sep (y :: rest).
Proof. reflexivity. Qed.

Lemma split_not_nil (c : ascii) (s : string) : PyStr.split c s ≠ [].
Proof. destruct s as [|a s]; cbn; [done|]. by repeat case_match. Qed.

Lemma join_split (c : ascii) (s : string) :
  PyStr.join (String c "") (PyStr.split c s) = s.
Proof.
  induction s as [|a s IH]; [done|].
  pose proof (split_not_nil c s) as Hne.
  cbn [PyStr.split]. destruct (PyStr.split c s) as [|f fs]; [done|].
  destruct (Ascii.eqb_spec a c) as [->|_].
  - by rewrite join_cons, IH.
  - destruct fs as [|g fs]; [by cbn in *; subst|].
    rewrite join_cons in *. cbn. by rewrite <- IH.
Qed.

Lemma filter_first {A} (P : A → Prop) `{!∀ x, Decision (P x)} (pre post : list A) x :
  Forall (λ y, ¬ P y) pre → P x →
  filter P (pre ++ x :: post) = x :: filter P post.
Proof.
  induction 1 as [|y pre Hy _ IH]; intros Hx.
  - by rewrite app_nil_l, filter_cons_True.
  - rewrite <- app_comm_cons, filter_cons_False by done. by apply IH.
Qed.

Lemma filter_none {A} (P : A → Prop) `{!∀ x, Decision (P x)} (l : list A) :
  Forall (λ y, ¬ P y) l → filter P l = [].
Proof.
  induction 1 as [|y l Hy _ IH]; [done|]. by rewrite filter_cons_False.
Qed.

(** ** C3: [GetPaddedPath] *)

Example GetPaddedPath_frame_number : GetPaddedPath "render.0101.exr" = "render.####.exr".
Proof. reflexivity. Qed.

Example GetPaddedPath_no_digits : GetPaddedPath "render.exr" = "render.exr".
Proof. reflexivity. Qed.

Lemma GetPaddedPath_no_match (path : string) :
  paddingRe_findall path = [] → GetPaddedPath path = path.
Proof. unfold GetPaddedPath. by intros ->. Qed.

Lemma take_digits_prefix (s : string) :
  s = take_digits s +:+ PyStr.drop (String.length (take_digits s)) s.
Proof.
  induction s as [|a s IH]; [done|]. cbn.
  destruct (PyStr.isdigit a); [|done]. rewrite append_cons. cbn. by f_equal.
Qed.

(** Every group the pattern finds is a piece of the path. *)
Lemma findall_from_occurs (ds s : string) (skip : nat) :
  ds ∈ findall_from skip s → ∃ l r, s = l +:+ ds +:+ r.
Proof.
  revert skip. induction s as [|a s IH]; intros skip; cbn; [by intros ?%elem_of_nil|].
  assert (∀ k, ds ∈ findall_from k s → ∃ l r, String a s = l +:+ ds +:+ r) as Hrest.
  { intros k (l & r & ->)%IH. by exists (String a l), r. }
  destruct skip as [|skip]; [|by apply Hrest].
  destruct (Ascii.eqb a "."); [|by apply Hrest].
  destruct (take_digits s) as [|c ds'] eqn:Hds; [by apply Hrest|].
  intros [->|Hin]%elem_of_cons; [|by eapply Hrest].
  exists (String a ""), (PyStr.drop (String.length (String c ds')) s).
  rewrite append_cons, append_nil_l, <- Hds. f_equal. apply take_digits_prefix.
Qed.

Lemma rpartition_sound (old s l r : string) :
  PyStr.rpartition old s = Some (l, r) → s = l +:+ old +:+ r.
Proof.
  revert l. induction s as [|a s IH]; intros l; cbn [PyStr.rpartition]; [done|].
  destruct (PyStr.rpartition old s) as [[l' r']|].
  - intros [= <- <-]. rewrite append_cons. f_equal. exact (IH l' eq_refl).
  - destruct (String.prefix old (String a s)) eqn:Hpre; [|done].
    intros [= <- <-]. rewrite append_nil_l. by apply prefix_drop.
Qed.

Lemma rpartition_complete (old l r : string) :
  old ≠ "" → is_Some (PyStr.rpartition old (l +:+ old +:+ r)).
Proof.
  intros Hold. induction l as [|a l [[l' r'] IH]].
  - rewrite append_nil_l. destruct old as [|a old]; [done|].
    rewrite append_cons. cbn [PyStr.rpartition].
    destruct (PyStr.rpartition _ _) as [[l' r']|]; [done|].
    rewrite <- append_cons, prefix_append. done.
  - rewrite append_cons. cbn [PyStr.rpartition]. by rewrite IH.
Qed.

Lemma padding_loop_run (fuel paddingSize : nat) (padding : string) :
  String.length padding + fuel = paddingSize →
  padding_loop fuel padding paddingSize = padding +:+ hash_run fuel.
Proof.
  revert padding. induction fuel as [|fuel IH]; intros padding Hlen;
    cbn [padding_loop hash_run].
  - by rewrite append_nil_r.
  - destruct (Nat.ltb_spec (String.length padding) paddingSize); [|lia].
    rewrite IH, string_app_assoc; [reflexivity|]. rewrite length_append. cbn. lia.
Qed.

(** What [GetPaddedPath] does in general: the group [ds] of the last match
    is looked up again from the right, and that occurrence, the rightmost
    one of the text [ds] in the path, gives way to as many hash characters.
    The occurrence is the matched one only when the digits do not occur
    again further right. *)
Lemma GetPaddedPath_shape (path ds : string) :
  last (paddingRe_findall path) = Some ds →
  ∃ l r, PyStr.rpartition ds path = Some (l, r)
         ∧ path = l +:+ ds +:+ r
         ∧ GetPaddedPath path = l +:+ hash_run (String.length ds) +:+ r.
Proof.
  intros Hlast.
  assert (ds ∈ paddingRe_findall path) as Hin.
  { apply last_Some in Hlast as [pre ->]. apply elem_of_app. right. left. }
  assert (ds ≠ "") as Hne.
  { clear Hlast. unfold paddingRe_findall in Hin. revert Hin. generalize 0.
    induction path as [|a s IH]; intros skip; cbn; [by intros ?%elem_of_nil|].
    destruct skip as [|skip]; [|by apply IH].
    destruct (Ascii.eqb a "."); [|by apply IH].
    destruct (take_digits s) as [|c ds'] eqn:Hds; [by apply IH|].
    intros [->|Hin]%elem_of_cons; [done|by eapply IH]. }
  destruct (findall_from_occurs ds path 0 Hin) as (l0 & r0 & Hpath).
  destruct (rpartition_complete ds l0 r0 Hne) as [[l r] Hpart].
  rewrite <- Hpath in Hpart. exists l, r. split; [done|].
  split; [by apply rpartition_sound|].
  unfold GetPaddedPath, RightReplace. rewrite Hlast. cbn [PyStr.rsplit].
  rewrite Hpart. cbn [PyStr.rsplit app PyStr.join].
  by rewrite padding_loop_run.
Qed.

(** C3: on ["img.2.jp2"] the pattern finds the dot-prefixed run ["2"], but
    [RightReplace] then rewrites the rightmost ["2"] of the name, the one
    of the extension, and the dot-prefixed run stays as it was. *)
Theorem GetPaddedPath_rewrites_later_digits :
  paddingRe_findall "img.2.jp2" = ["2"]
  ∧ GetPaddedPath "img.2.jp2" = "img.2.jp#"
  ∧ GetPaddedPath "img.2.jp2" ≠ "img.#.jp2".
Proof. by repeat split. Qed.

(** ** C9: [GetJobIDFromJobResults] *)

Example GetJobIDFromJobResults_all_occurrences :
  GetJobIDFromJobResults ("JobID=abcJobID=12" +:+ PyStr.nl +:+ "JobID=9") = inr "abc12".
Proof. reflexivity. Qed.

(** C9: the job id is the first line of the output that starts with
    ["JobID="], with the occurrences of ["JobID="] replaced by nothing;
    without such a line the call raises [IndexError]. *)
Theorem GetJobIDFromJobResults_first_line (results : string) :
  (∀ pre line post,
      PyStr.split PyStr.LF results = pre ++ line :: post →
      Forall (λ l, PyStr.startswith l "JobID=" ≠ true) pre →
      PyStr.startswith line "JobID=" = true →
      GetJobIDFromJobResults results = inr (PyStr.replace line "JobID=" ""))
  ∧ (Forall (λ l, PyStr.startswith l "JobID=" ≠ true) (PyStr.split PyStr.LF results) →
     GetJobIDFromJobResults results = inl IndexError).
Proof.
  unfold GetJobIDFromJobResults. split.
  - intros pre line post -> Hpre Hline. by rewrite filter_first.
  - intros Hall. by rewrite filter_none.
Qed.

Lemma GetJobIDFromJobResults_first_line_witness :
  GetJobIDFromJobResults ("Result=Success" +:+ PyStr.nl +:+ "JobID=5f3a9c" +:+ PyStr.nl +:+ "JobID=77")
    = inr "5f3a9c"
  ∧ GetJobIDFromJobResults "Error: no connection" = inl IndexError.
Proof.
  split.
  - apply (proj1 (GetJobIDFromJobResults_first_line _) ["Result=Success"] "JobID=5f3a9c" ["JobID=77"]).
    + reflexivity.
    + repeat constructor. discriminate.
    + reflexivity.
  - apply (proj2 (GetJobIDFromJobResults_first_line _)).
    repeat constructor. discriminate.
Defined.

(** ** C10: the [JobDependencies] line *)

Lemma output_entries_key `{Host} (outputs : list string) (i : nat) (k v : string) :
  (k, v) ∈ output_entries i outputs → ∃ j, k = "OutputFilename" +:+ str_nat j.
Proof.
  revert i. induction outputs as [|o outputs IH]; intros i; cbn.
  - by intros ?%elem_of_nil.
  - destruct (os_path_split o) as [tempPath tempFileName].
    intros [Heq|Hin]%elem_of_cons; [simplify_eq; eauto|by eapply IH].
Qed.


(** ** C8: a node without dependencies is ready *)

Lemma GetAllDependencyNames_elem `{Host} (n : Node) (d : string) :
  d ∈ GetAllDependencyNames n ↔ d ∈ dependencies n.
Proof. apply set_to_list_elem. Qed.

Lemma RenderNodeReady_true `{Host} (n : Node) (dct : gmap string string) :
  RenderNodeReady n dct = true ↔ ∀ d, d ∈ dependencies n → is_Some (dct !! d).
Proof.
  unfold RenderNodeReady. rewrite bool_decide_eq_true. split.
  - intros Hsub d Hd. apply elem_of_dom, Hsub, elem_of_list_to_set.
    by apply GetAllDependencyNames_elem.
  - intros Hall d Hd%elem_of_list_to_set. apply elem_of_dom, Hall.
    by apply GetAllDependencyNames_elem.
Qed.

(** C8: a node with an empty dependency list has an empty set of dependency
    names and is ready whatever the map of submitted nodes holds, the empty
    map included. *)
Theorem RenderNodeReady_no_dependencies `{Host} (renderNode : Node)
    (dct : gmap string string) :
  dependencies renderNode = [] →
  GetAllDependencyNames renderNode = [] ∧ RenderNodeReady renderNode dct = true.
Proof.
  intros Hnil. split.
  - destruct (GetAllDependencyNames renderNode) as [|d l] eqn:E; [done|].
    assert (d ∈ dependencies renderNode) as Hd
      by (apply GetAllDependencyNames_elem; rewrite E; left).
    rewrite Hnil in Hd. by apply elem_of_nil in Hd.
  - apply RenderNodeReady_true. intros d Hd. rewrite Hnil in Hd.
    by apply elem_of_nil in Hd.
Qed.

Lemma RenderNodeReady_no_dependencies_witness :
  GetAllDependencyNames (render_node "beauty" []) = []
  ∧ RenderNodeReady (render_node "beauty" []) ∅ = true.
Proof. apply (RenderNodeReady_no_dependencies (render_node "beauty" []) ∅). reflexivity. Defined.

(** ** C5: the dependency string *)

Lemma two_element_list (l : list string) (A B : string) :
  A ≠ B → NoDup l → (∀ x, x ∈ l ↔ x = A ∨ x = B) → l = [A; B] ∨ l = [B; A].
Proof.
  intros Hne Hnd Hel.
  destruct l as [|x [|y l]].
  - exfalso. eapply elem_of_nil, Hel. by left.
  - exfalso. assert (A = x) by (apply list_elem_of_singleton, Hel; by left).
    assert (B = x) by (apply list_elem_of_singleton, Hel; by right). congruence.
  - apply NoDup_cons in Hnd as [Hx Hnd]. apply NoDup_cons in Hnd as [Hy Hnd].
    assert (l = []) as ->.
    { destruct l as [|z l]; [done|]. exfalso.
      assert (x = A ∨ x = B) as Hx' by (apply Hel; left).
      assert (y = A ∨ y = B) as Hy' by (apply Hel; right; left).
      assert (z = A ∨ z = B) as Hz' by (apply Hel; right; right; left).
      destruct Hx' as [->| ->], Hy' as [->| ->], Hz' as [->| ->];
        first [ by apply Hx; left | by apply Hx; right; left | by apply Hy; left ]. }
    assert (x = A ∨ x = B) as Hx' by (apply Hel; left).
    assert (y = A ∨ y = B) as Hy' by (apply Hel; right; left).
    destruct Hx' as [->| ->], Hy' as [->| ->];
      first [ by left | by right | by exfalso; apply Hx; left ].
Qed.

(** C5 (amended): with dependency names exactly [A] and [B], mapped to
    ["123"] and ["124"], the string lists the two ids in the order in which
    the set of names is iterated: ["123,124"] when [A] comes first and
    ["124,123"] when [B] does. *)
Theorem GetDependentIDString_two_dependencies `{Host} (renderNode : Node)
    (A B : string) (nodeIDDict : gmap string string) :
  A ≠ B →
  (∀ x, x ∈ dependencies renderNode ↔ x = A ∨ x = B) →
  nodeIDDict !! A = Some "123" →
  nodeIDDict !! B = Some "124" →
  (GetAllDependencyNames renderNode = [A; B]
   ∧ GetDependentIDString renderNode nodeIDDict = inr "123,124")
  ∨ (GetAllDependencyNames renderNode = [B; A]
     ∧ GetDependentIDString renderNode nodeIDDict = inr "124,123").
Proof.
  intros Hne Hel HA HB.
  destruct (two_element_list (GetAllDependencyNames renderNode) A B Hne) as [E|E].
  - apply set_to_list_NoDup.
  - intros x. by rewrite GetAllDependencyNames_elem.
  - left. split; [done|]. unfold GetDependentIDString. rewrite E. cbn.
    by rewrite HA, HB.
  - right. split; [done|]. unfold GetDependentIDString. rewrite E. cbn.
    by rewrite HA, HB.
Qed.

Lemma GetDependentIDString_two_dependencies_witness :
  (GetAllDependencyNames (render_node "comp" ["Render1"; "Render2"]) = ["Render1"; "Render2"]
   ∧ GetDependentIDString (render_node "comp" ["Render1"; "Render2"]) two_jobs
     = inr "123,124")
  ∨ (GetAllDependencyNames (render_node "comp" ["Render1"; "Render2"]) = ["Render2"; "Render1"]
     ∧ GetDependentIDString (render_node "comp" ["Render1"; "Render2"]) two_jobs
       = inr "124,123").
Proof.
  apply (GetDependentIDString_two_dependencies
           (render_node "comp" ["Render1"; "Render2"]) "Render1" "Render2" two_jobs).
  - discriminate.
  - intros x. cbn. rewrite !elem_of_cons, elem_of_nil. tauto.
  - reflexivity.
  - reflexivity.
Defined.

Example GetDependentIDString_second_first :
  GetDependentIDString (render_node "comp" ["Render2"; "Render1"]) two_jobs
  = inr "124,123".
Proof. reflexivity. Qed.

(** C5 (counterexample): on a host whose sets iterate in first-seen order,
    a node listing [Render2] before [Render1], with [Render1] mapped to
    ["123"] and [Render2] to ["124"], gets ["124,123"]. *)
Lemma GetDependentIDString_order_counterexample :
  ¬ (∀ (H : Host) (renderNode : Node) (A B : string) (nodeIDDict : gmap string string),
        A ≠ B →
        (∀ x, x ∈ dependencies renderNode ↔ x = A ∨ x = B) →
        nodeIDDict !! A = Some "123" →
        nodeIDDict !! B = Some "124" →
        GetDependentIDString renderNode nodeIDDict = inr "123,124").
Proof.
  intros Hclaim.
  specialize (Hclaim Posix.host (render_node "comp" ["Render2"; "Render1"])
                "Render1" "Render2" two_jobs).
  assert (GetDependentIDString (render_node "comp" ["Render2"; "Render1"]) two_jobs
          = inr "123,124") as Habs.
  { apply Hclaim; [discriminate| |reflexivity|reflexivity].
    intros x. cbn. rewrite !elem_of_cons, elem_of_nil. tauto. }
  discriminate Habs.
Qed.

(** ** C7: the pre-flight checks *)

Lemma spawned_app (tr1 tr2 : list Event) :
  spawned (tr1 ++ tr2) = spawned tr1 ++ spawned tr2.
Proof. apply omap_app. Qed.

Lemma spawned_WriteStickySettings `{Host} (gui : Gui) (tr : list Event) :
  spawned (WriteStickySettings gui tr) = spawned tr.
Proof.
  unfold WriteStickySettings. case_match; rewrite !spawned_app; cbn;
    by rewrite !app_nil_r.
Qed.

(** C7: with no scene file, no eligible output node or an empty frame
    range, [SubmitPressed] writes the sticky settings, shows one
    information box and returns; the trace gains no spawned process. *)
Theorem SubmitPressed_preflight `{Host} (fuel : nat) (gui : Gui) (sc : Scene)
    (tr : list Event) :
  GetSourceFile sc = "" ∨ get_output_nodes sc (includeImageWrite gui) = []
  ∨ frameRangeWidget gui = "" →
  (∃ title text,
      SubmitPressed fuel gui sc tr =
        (Returned,
         WriteStickySettings gui
           (tr ++ [EPrint "Submitting Katana Render Job(s) To Deadline..."])
         ++ [EInformation title text]))
  ∧ spawned (SubmitPressed fuel gui sc tr).2 = spawned tr.
Proof.
  intros Hpre.
  assert (∃ title text,
      SubmitPressed fuel gui sc tr =
        (Returned,
         WriteStickySettings gui
           (tr ++ [EPrint "Submitting Katana Render Job(s) To Deadline..."])
         ++ [EInformation title text])) as Hbox.
  { unfold SubmitPressed.
    destruct (String.eqb_spec (GetSourceFile sc) "") as [_|Hscene]; [eauto|].
    destruct (get_output_nodes sc (includeImageWrite gui)) as [|n nodes] eqn:Hnodes;
      [cbn; eauto|].
    cbn [length Nat.eqb].
    destruct (String.eqb_spec (frameRangeWidget gui) "") as [_|Hframes]; [eauto|].
    by destruct Hpre as [?|[?|?]]. }
  split; [done|].
  destruct Hbox as (title & text & ->). cbn [snd].
  rewrite spawned_app, spawned_WriteStickySettings, spawned_app. cbn.
  by rewrite !app_nil_r.
Qed.

Lemma SubmitPressed_preflight_witness :
  (∃ title text,
      SubmitPressed 10 demo_gui unsaved_scene [] =
        (Returned,
         WriteStickySettings demo_gui
           [EPrint "Submitting Katana Render Job(s) To Deadline..."]
         ++ [EInformation title text]))
  ∧ spawned (SubmitPressed 10 demo_gui unsaved_scene []).2 = spawned [].
Proof.
  apply (SubmitPressed_preflight 10 demo_gui unsaved_scene []).
  left. reflexivity.
Defined.

(** ** C6: reading a descriptor back *)

Lemma contains_app (c : ascii) (s t : string) :
  PyStr.contains c (s +:+ t) = PyStr.contains c s || PyStr.contains c t.
Proof.
  induction s as [|a s IH]; [done|].
  rewrite append_cons. cbn [PyStr.contains]. by rewrite IH, orb_assoc.
Qed.













(** ** Facts about dependency graphs *)

Lemma deps_in_list_elem (nodes : list Node) (n : Node) (d : string) :
  deps_in_list nodes → n ∈ nodes → d ∈ dependencies n → d ∈ getName <$> nodes.
Proof.
  unfold deps_in_list. rewrite Forall_forall. intros Hall Hn Hd.
  specialize (Hall n Hn). rewrite Forall_forall in Hall. auto.
Qed.

Lemma blocked_elem (nodes : list Node) (S : list string) (n : Node) :
  blocked nodes S → n ∈ nodes → getName n ∈ S →
  ∃ d, d ∈ dependencies n ∧ d ∈ S.
Proof.
  unfold blocked. rewrite Forall_forall. intros Hall Hn HS.
  by apply Exists_exists, Hall.
Qed.

Lemma ranked_tc (rank : string → nat) (nodes : list Node) (a b : string) :
  ranked rank nodes → tc (depends_on nodes) a b → rank b < rank a.
Proof.
  unfold ranked. rewrite Forall_forall. intros Hall.
  assert (∀ x y, depends_on nodes x y → rank y < rank x) as Hstep.
  { intros x y (n & Hn & <- & Hy). specialize (Hall n Hn).
    rewrite Forall_forall in Hall. auto. }
  induction 1 as [x y Hxy|x y z Hxy _ IH]; [auto|].
  apply Hstep in Hxy. lia.
Qed.

(** A graph whose names can be numbered downwards along the dependencies
    has no cycle. *)
Lemma ranked_acyclic (rank : string → nat) (nodes : list Node) :
  ranked rank nodes → acyclic nodes.
Proof. intros Hrank a Hcycle%(ranked_tc rank); [lia|done]. Qed.

(** ** Walks in a finite graph *)

Lemma rpath_tc (R : relation string) (b : string) (p : list string) :
  rpath R (b :: p) → ∀ a, a ∈ p → tc R a b.
Proof.
  revert b. induction p as [|a p IH]; intros b Hp x Hx.
  - by apply elem_of_nil in Hx.
  - inversion Hp as [|? ? ? Hab Hrest]; subst.
    apply elem_of_cons in Hx as [->|Hx]; [by apply tc_once|].
    eapply tc_r; [by apply IH|done].
Qed.

Lemma rpath_NoDup (R : relation string) (p : list string) :
  (∀ a, ¬ tc R a a) → rpath R p → NoDup p.
Proof.
  intros Hacyc. induction 1 as [a|b a p Hab Hp IH].
  - apply NoDup_singleton.
  - apply NoDup_cons. split; [|done].
    intros Hb. apply (Hacyc b).
    eapply rpath_tc; [|exact Hb]. by constructor.
Qed.

Lemma rpath_extend (R : relation string) (l : list string) :
  (∀ a, a ∈ l → ∃ b, b ∈ l ∧ R a b) →
  ∀ a, a ∈ l → ∀ k, ∃ p, rpath R p ∧ length p = S k ∧ ∀ x, x ∈ p → x ∈ l.
Proof.
  intros Hsucc a Ha k. induction k as [|k (p & Hp & Hlen & Hin)].
  - exists [a]. split; [constructor|]. split; [done|].
    by intros x ->%list_elem_of_singleton.
  - destruct p as [|h p]; [done|].
    destruct (Hsucc h) as (b & Hb & Hhb); [apply Hin; left|].
    exists (b :: h :: p). split; [by constructor|]. split; [by rewrite <- Hlen|].
    intros x [->|Hx]%elem_of_cons; auto.
Qed.

(** In an acyclic graph a non-empty finite set of names has a member
    without a successor in the set. *)
Lemma acyclic_sink (R : relation string) (l : list string) :
  (∀ a, ¬ tc R a a) → l ≠ [] → ¬ (∀ a, a ∈ l → ∃ b, b ∈ l ∧ R a b).
Proof.
  intros Hacyc Hne Hsucc. destruct l as [|a l]; [done|].
  destruct (rpath_extend R (a :: l) Hsucc a (list_elem_of_here _ _) (length (a :: l)))
    as (p & Hp & Hlen & Hin).
  assert (length p ≤ length (a :: l)) as Hle.
  { apply submseteq_length, NoDup_submseteq; [|done]. by eapply rpath_NoDup. }
  lia.
Qed.

(** ** The turns of the loop *)

Lemma list_remove_perm (x : Node) (l : list Node) :
  x ∈ l → x :: list_remove x l ≡ₚ l.
Proof.
  induction l as [|y l IH]; [by intros ?%elem_of_nil|].
  intros Hx. cbn. destruct (decide (x = y)) as [->|Hne]; [done|].
  apply elem_of_cons in Hx as [?|Hx]; [done|].
  rewrite Permutation_swap. by rewrite IH.
Qed.

Lemma list_remove_other (x y : Node) (l : list Node) :
  y ∈ l → y ≠ x → y ∈ list_remove x l.
Proof.
  induction l as [|z l IH]; [by intros ?%elem_of_nil|].
  intros Hy Hne. cbn. destruct (decide (x = z)) as [->|Hxz].
  - apply elem_of_cons in Hy as [?|?]; done.
  - apply elem_of_cons in Hy as [->|Hy]; [left|right; auto].
Qed.

Lemma GetJobIDFromJobResults_error (results : string) (e : PyError) :
  GetJobIDFromJobResults results = inl e → e = IndexError.
Proof. unfold GetJobIDFromJobResults. case_match; congruence. Qed.

Lemma lookup_all_present (dct : gmap string string) (deps : list string) :
  (∀ d, d ∈ deps → is_Some (dct !! d)) → ∃ ids, lookup_all dct deps = inr ids.
Proof.
  induction deps as [|d deps IH]; intros Hall; [by eexists|].
  destruct (Hall d) as [id Hid]; [left|].
  destruct IH as [ids Hids]; [intros; apply Hall; by right|].
  exists (id :: ids). cbn. by rewrite Hid, Hids.
Qed.

Lemma ready_ids `{Host} (n : Node) (dct : gmap string string) :
  RenderNodeReady n dct = true → ∃ ids, GetDependentIDString n dct = inr ids.
Proof.
  intros Hready. unfold GetDependentIDString.
  destruct (lookup_all_present dct (GetAllDependencyNames n)) as [ids ->]; [|eauto].
  intros d Hd%GetAllDependencyNames_elem.
  by eapply RenderNodeReady_true.
Qed.

Lemma not_ready_missing `{Host} (n : Node) (dct : gmap string string) :
  RenderNodeReady n dct = false → ∃ d, d ∈ dependencies n ∧ dct !! d = None.
Proof.
  intros Hnot.
  destruct (Forall_Exists_dec (λ d, is_Some (dct !! d)) (λ d, dct !! d = None)
              (λ d, match dct !! d as o return {is_Some o} + {o = None} with
                    | Some x => left (mk_is_Some _ _ eq_refl)
                    | None => right eq_refl
                    end)
              (dependencies n)) as [Hall|Hex].
  - rewrite Forall_forall in Hall.
    apply RenderNodeReady_true in Hall. congruence.
  - apply Exists_exists in Hex as (d & Hd & Hnone). eauto.
Qed.

Section LoopProperties.

Context `{Host}.
Variables (gui : Gui) (scene : string) (submitScene : bool) (numJobs : Z).

Local Abbreviation body := (loop_body gui scene submitScene numJobs).
Local Abbreviation run := (run_loop gui scene submitScene numJobs).
Local Abbreviation turns := (turn gui scene submitScene numJobs).
Local Abbreviation after := (state_after gui scene submitScene numJobs).

Lemma loop_body_turn (st : LoopState) : turns st (body st).
Proof.
  unfold loop_body.
  destruct (items st !! currNode st) as [node|] eqn:Hnode; [|by constructor].
  destruct (RenderNodeReady node (nodeToID st)) eqn:Hready;
    [|by econstructor].
  destruct (GetDependentIDString node (nodeToID st)) as [e|ids] eqn:Hids;
    [by econstructor|].
  destruct (WriteJobFilesAndSubmit _ _ _ _ _ _ _ _ _) as [currResult tr] eqn:Hcall.
  destruct (GetJobIDFromJobResults currResult) as [e|jobID] eqn:Hid;
    [by econstructor|].
  cbn zeta. destruct (list_remove node (items st)) as [|x l] eqn:Hrem; cbn [items after_submit].
  - rewrite Hrem. by econstructor.
  - rewrite Hrem. cbn. eapply turn_submit_more; eauto. by rewrite Hrem.
Qed.

Lemma length_list_remove (x : Node) (l : list Node) :
  x ∈ l → S (length (list_remove x l)) = length l.
Proof. intros Hx. apply (Permutation_length (list_remove_perm x l Hx)). Qed.

Lemma turn_measure (st st' : LoopState) :
  turns st (Continue st') → loop_measure st' < loop_measure st.
Proof.
  inversion 1 as [|node Hnode _| | |
                  |node ids currResult tr jobID Hnode _ _ _ _ _]; subst;
    unfold loop_measure; cbn [items currNode next_node after_submit];
    pose proof (lookup_lt_Some _ _ _ Hnode) as Hlt.
  - lia.
  - pose proof (length_list_remove node (items st)
                  (proj2 (list_elem_of_lookup _ _) (ex_intro _ _ Hnode))) as Hlen.
    nia.
Qed.

(** The loop halts on every input: with fuel above [loop_measure] the
    result is never the pending state. *)
Lemma run_loop_halts (fuel : nat) (st : LoopState) :
  loop_measure st < fuel → ∀ st', run fuel st ≠ Continue st'.
Proof.
  revert st. induction fuel as [|fuel IH]; intros st Hlt st'; [lia|].
  cbn. pose proof (loop_body_turn st) as Hturn.
  destruct (body st) as [st1| |] eqn:Hbody; [|done..].
  apply IH. apply turn_measure in Hturn. lia.
Qed.

Lemma run_loop_more_fuel (fuel fuel' : nat) (st : LoopState) :
  (∀ st', run fuel st ≠ Continue st') → fuel ≤ fuel' → run fuel' st = run fuel st.
Proof.
  revert fuel' st. induction fuel as [|fuel IH]; intros fuel' st Hhalt Hle.
  - by destruct (Hhalt st).
  - destruct fuel' as [|fuel']; [lia|]. cbn in *.
    destruct (body st); [|done..]. apply IH; [done|lia].
Qed.

(** What holds before a turn and is kept by the turns that continue holds
    when the loop stops. *)
Lemma run_loop_stops (P : LoopState → Prop) (Q : Step → Prop) :
  (∀ st st', P st → turns st (Continue st') → P st') →
  (∀ st r, P st → turns st r → (∀ st', r ≠ Continue st') → Q r) →
  ∀ fuel st, P st → (∀ st', run fuel st ≠ Continue st') → Q (run fuel st).
Proof.
  intros Hkeep Hstop fuel. induction fuel as [|fuel IH]; intros st HP Hhalt.
  - by destruct (Hhalt st).
  - cbn in *. pose proof (loop_body_turn st) as Hturn.
    destruct (body st) as [st1|st1|e st1] eqn:Hbody.
    + apply IH; [by eapply Hkeep|done].
    + by eapply Hstop.
    + by eapply Hstop.
Qed.

Lemma state_after_keeps (P : LoopState → Prop) :
  (∀ st st', P st → turns st (Continue st') → P st') →
  ∀ k st0 st, P st0 → after k st0 = Some st → P st.
Proof.
  intros Hkeep k. induction k as [|k IH]; intros st0 st HP Hafter.
  - cbn in Hafter. by simplify_eq.
  - cbn in Hafter. pose proof (loop_body_turn st0) as Hturn.
    destruct (body st0) as [st1| |] eqn:Hbody; [|done..].
    eapply IH; [|done]. by eapply Hkeep.
Qed.

End LoopProperties.

(** ** The invariant of the loop *)

Section LoopInvariant.

Context `{Host}.
Variables (gui : Gui) (scene : string) (submitScene : bool) (numJobs : Z).
Variable nodes : list Node.

Local Abbreviation turns := (turn gui scene submitScene numJobs).

Lemma loop_inv_init (tr : list Event) : loop_inv nodes (loop_init nodes tr).
Proof.
  unfold loop_inv. cbn [loop_init nodeToID submitted items].
  split; [done|]. split; [by rewrite dom_empty_L|].
  intros i n d Hi. by rewrite lookup_nil in Hi.
Qed.

Lemma dependencies_first_snoc (order : list Node) (node : Node) :
  dependencies_first order →
  (∀ d, d ∈ dependencies node → d ∈ getName <$> order) →
  dependencies_first (order ++ [node]).
Proof.
  intros Hfirst Hdeps i n d Hi Hd.
  destruct (decide (i < length order)) as [Hlt|Hge].
  - rewrite lookup_app_l in Hi by done.
    destruct (Hfirst i n d Hi Hd) as (j & m & Hj & Hm & Hname).
    exists j, m. split; [done|]. split; [|done].
    rewrite lookup_app_l by lia. done.
  - rewrite lookup_app_r in Hi by lia.
    destruct (i - length order) as [|k] eqn:Hk; [|by destruct k].
    cbn in Hi. simplify_eq.
    apply Hdeps, list_elem_of_fmap in Hd as (m & Hname & Hm).
    apply list_elem_of_lookup in Hm as [j Hj].
    exists j, m. split; [apply lookup_lt_Some in Hj; lia|].
    split; [|done]. by apply lookup_app_l_Some.
Qed.

Lemma loop_inv_submit (st : LoopState) (node : Node) (jobID currResult : string)
    (tr : list Event) :
  loop_inv nodes st →
  items st !! currNode st = Some node →
  RenderNodeReady node (nodeToID st) = true →
  loop_inv nodes (after_submit st node jobID currResult tr).
Proof.
  intros (Hperm & Hdom & Hfirst) Hnode Hready.
  assert (node ∈ items st) as Hin by (apply list_elem_of_lookup; eauto).
  split; [|split]; cbn [after_submit submitted items nodeToID].
  - rewrite <- Hperm, <- app_assoc. cbn. by rewrite list_remove_perm.
  - rewrite dom_insert_L, Hdom, fmap_app, list_to_set_app_L. cbn.
    rewrite (right_id_L ∅ (∪)). apply (comm_L (∪)).
  - apply dependencies_first_snoc; [done|].
    intros d Hd. eapply RenderNodeReady_true in Hready; [|done].
    apply elem_of_dom in Hready. rewrite Hdom in Hready.
    by apply elem_of_list_to_set in Hready.
Qed.

Lemma loop_inv_keep (st st' : LoopState) :
  loop_inv nodes st → turns st (Continue st') → loop_inv nodes st'.
Proof.
  intros Hinv. inversion 1; subst; [done|]. by eapply loop_inv_submit.
Qed.

Lemma fresh_name (st : LoopState) (node : Node) :
  NoDup (getName <$> nodes) → loop_inv nodes st → node ∈ items st →
  nodeToID st !! getName node = None.
Proof.
  intros Hnd (Hperm & Hdom & _) Hin.
  rewrite <- Hperm, fmap_app in Hnd. apply NoDup_app in Hnd as (_ & Hdisj & _).
  apply not_elem_of_dom. rewrite Hdom. intros Hname%elem_of_list_to_set.
  apply (Hdisj _ Hname). by apply list_elem_of_fmap_2.
Qed.

Lemma exists_ready (st : LoopState) :
  deps_in_list nodes → acyclic nodes → loop_inv nodes st → items st ≠ [] →
  ¬ Forall (λ n, RenderNodeReady n (nodeToID st) = false) (items st).
Proof.
  intros Hclosed Hacyc (Hperm & Hdom & _) Hne Hnone.
  apply (acyclic_sink (depends_on nodes) (getName <$> items st) Hacyc).
  { by destruct (items st). }
  intros a (n & -> & Hn)%list_elem_of_fmap.
  rewrite Forall_forall in Hnone.
  destruct (not_ready_missing n (nodeToID st) (Hnone n Hn)) as (d & Hd & Hmiss).
  assert (n ∈ nodes) as Hn' by (rewrite <- Hperm; apply elem_of_app; by right).
  exists d. split; [|by exists n].
  pose proof (deps_in_list_elem nodes n d Hclosed Hn' Hd) as Hdn.
  rewrite <- Hperm, fmap_app in Hdn. apply elem_of_app in Hdn as [Hsub|Hwait]; [|done].
  exfalso. apply not_elem_of_dom in Hmiss. apply Hmiss. rewrite Hdom.
  by apply elem_of_list_to_set.
Qed.

End LoopInvariant.

(** ** C4: the map of submitted nodes only grows *)

(** C4: in a run over nodes with distinct names, every turn of the loop
    leaves each entry of [nodeToID] as it was, adding at most the entry of
    the node it submits, and a node is handed to [WriteJobFilesAndSubmit]
    only when each of its dependency names already has a job id in the
    map. *)
Theorem nodeToID_monotonic `{Host} (gui : Gui) (scene : string) (submitScene : bool)
    (numJobs : Z) (nodes : list Node) (tr : list Event) (k : nat) (st : LoopState) :
  NoDup (getName <$> nodes) →
  state_after gui scene submitScene numJobs k (loop_init nodes tr) = Some st →
  let st' := state_of (loop_body gui scene submitScene numJobs st) in
  nodeToID st ⊆ nodeToID st'
  ∧ (submitted st' = submitted st ∧ nodeToID st' = nodeToID st
     ∨ ∃ node, submitted st' = submitted st ++ [node]
         ∧ (∀ d, d ∈ dependencies node → is_Some (nodeToID st !! d))
         ∧ nodeToID st !! getName node = None
         ∧ (nodeToID st' = nodeToID st
            ∨ ∃ jobID, nodeToID st' = <[getName node := jobID]> (nodeToID st))).
Proof.
  intros Hnd Hafter st'.
  assert (loop_inv nodes st) as Hinv.
  { eapply (state_after_keeps gui scene submitScene numJobs (loop_inv nodes));
      [apply loop_inv_keep|apply loop_inv_init|done]. }
  subst st'. pose proof (loop_body_turn gui scene submitScene numJobs st) as Hturn.
  assert (∀ node, items st !! currNode st = Some node →
            RenderNodeReady node (nodeToID st) = true →
            (∀ d, d ∈ dependencies node → is_Some (nodeToID st !! d))
            ∧ nodeToID st !! getName node = None) as Hsub.
  { intros node Hnode Hready. split; [by apply RenderNodeReady_true|].
    eapply fresh_name; [done..|]. apply list_elem_of_lookup. eauto. }
  inversion Hturn as [| | |node ? ? ? ? Hnode Hready
                      |node ? ? ? jobID Hnode Hready
                      |node ? ? ? jobID Hnode Hready]; subst;
    cbn [state_of next_node after_call after_submit nodeToID submitted].
  - split; [done|by left].
  - split; [done|by left].
  - split; [done|by left].
  - destruct (Hsub node Hnode Hready) as [Hdeps Hfresh].
    split; [done|]. right. exists node. eauto.
  - destruct (Hsub node Hnode Hready) as [Hdeps Hfresh].
    split; [by apply insert_subseteq|]. right. exists node. eauto 10.
  - destruct (Hsub node Hnode Hready) as [Hdeps Hfresh].
    split; [by apply insert_subseteq|]. right. exists node. eauto 10.
Qed.

(** ** C2: dependencies that are never satisfied *)

Lemma list_remove_subset (x y : Node) (l : list Node) :
  y ∈ list_remove x l → y ∈ l.
Proof.
  induction l as [|z l IH]; [done|]. cbn.
  destruct (decide (x = z)) as [->|Hne]; [by right|].
  intros [->|Hy]%elem_of_cons; [left|right; auto].
Qed.

(** C2 (amended): when a node of the working list waits for a name that
    can never enter [nodeToID] (the name belongs to a set of names in which
    every node of the list waits for another name of the set), the loop
    does not run on: it raises [IndexError] within [loop_measure] turns,
    and that node is still in the working list, not submitted. *)
Theorem loop_raises_on_blocked `{Host} (gui : Gui) (scene : string)
    (submitScene : bool) (numJobs : Z) (nodes : list Node) (tr : list Event)
    (S : list string) (n : Node) (d : string) :
  n ∈ nodes → d ∈ dependencies n → d ∈ S → blocked nodes S →
  ∃ st,
    (∀ fuel, loop_measure (loop_init nodes tr) < fuel →
       run_loop gui scene submitScene numJobs fuel (loop_init nodes tr)
       = Raise IndexError st)
    ∧ n ∈ items st ∧ (n ∉ submitted st) ∧ nodeToID st !! d = None.
Proof.
  intros Hn Hd HdS Hblocked.
  set (P := λ (st : LoopState),
         n ∈ items st ∧ (n ∉ submitted st)
         ∧ (∀ x, x ∈ items st → x ∈ nodes)
         ∧ ∀ x, x ∈ S → nodeToID st !! x = None).
  set (Q := λ (r : Step),
         ∃ st, r = Raise IndexError st ∧ n ∈ items st ∧ (n ∉ submitted st)
               ∧ nodeToID st !! d = None).
  assert (∀ st node, P st → items st !! currNode st = Some node →
            RenderNodeReady node (nodeToID st) = true →
            node ≠ n ∧ getName node ∉ S) as Hready.
  { intros st node (_ & _ & Hsub & Hnone) Hnode Hrdy.
    assert (∀ m, m ∈ nodes → getName m ∈ S → RenderNodeReady m (nodeToID st) = false)
      as Hwait.
    { intros m Hm HmS.
      destruct (blocked_elem nodes S m Hblocked Hm HmS) as (d' & Hd' & Hd'S).
      destruct (RenderNodeReady m (nodeToID st)) eqn:E; [|done].
      eapply RenderNodeReady_true in E; [|done].
      rewrite (Hnone d' Hd'S) in E. by destruct E. }
    split.
    - intros ->. eapply RenderNodeReady_true in Hrdy; [|done].
      rewrite (Hnone d HdS) in Hrdy. by destruct Hrdy.
    - intros HS. rewrite Hwait in Hrdy; [done| |done].
      apply Hsub, list_elem_of_lookup. eauto. }
  assert (P (loop_init nodes tr)) as Hinit.
  { unfold P. cbn [loop_init items submitted nodeToID].
    split; [done|]. split; [by intros ?%elem_of_nil|]. split; [done|].
    intros x _. apply lookup_empty. }
  assert (∀ st st', P st → turn gui scene submitScene numJobs st (Continue st') → P st')
    as Hkeep.
  { intros st st' HP Hturn. pose proof HP as (Hin & Hnot & Hsub & Hnone).
    inversion Hturn as [|node Hnode _| | |
                        |node ? ? ? jobID Hnode Hrdy]; subst; [done|].
    destruct (Hready st node HP Hnode Hrdy) as [Hne HnS].
    unfold P. cbn [after_submit items submitted nodeToID].
    split; [by apply list_remove_other|].
    split; [intros [?|?%list_elem_of_singleton]%elem_of_app; done|].
    split; [intros x Hx%list_remove_subset; auto|].
    intros x Hx. rewrite lookup_insert_ne; [auto|]. by intros <-. }
  assert (∀ st r, P st → turn gui scene submitScene numJobs st r →
            (∀ st', r ≠ Continue st') → Q r) as Hstop.
  { intros st r HP Hturn Hhalt. pose proof HP as (Hin & Hnot & Hsub & Hnone).
    inversion Hturn as [|node Hnode _|node e Hnode Hrdy Hids
                        |node ? ? tr' e Hnode Hrdy _ _ Hid
                        |node ? ? ? jobID Hnode Hrdy _ _ _ Hlast
                        |node ? ? ? jobID Hnode Hrdy]; subst.
    - exists st. auto.
    - by destruct (Hhalt (next_node st)).
    - destruct (ready_ids node (nodeToID st) Hrdy) as [ids Hids']. congruence.
    - apply GetJobIDFromJobResults_error in Hid as ->.
      destruct (Hready st node HP Hnode Hrdy) as [Hne _].
      exists (after_call st node tr'). cbn [after_call items submitted nodeToID].
      split; [done|]. split; [done|].
      split; [intros [?|?%list_elem_of_singleton]%elem_of_app; done|auto].
    - destruct (Hready st node HP Hnode Hrdy) as [Hne _].
      assert (n ∈ list_remove node (items st)) as Hrem by by apply list_remove_other.
      rewrite Hlast in Hrem. by apply elem_of_nil in Hrem.
    - by edestruct Hhalt. }
  pose proof (run_loop_halts gui scene submitScene numJobs _ _
                (Nat.lt_succ_diag_r (loop_measure (loop_init nodes tr)))) as Hhalt.
  destruct (run_loop_stops gui scene submitScene numJobs P Q Hkeep Hstop _ _ Hinit Hhalt)
    as (st & Hrun & Hst).
  exists st. split; [|done].
  intros fuel Hfuel. rewrite <- Hrun. apply run_loop_more_fuel; [done|lia].
Qed.

(** ** C1: acyclic dependencies are submitted in order *)

(** C1: over a non-empty list of nodes with distinct names, whose
    dependency names are names of the list and form no cycle, and with
    every submission returning a job id, the loop stops normally within
    [loop_measure] turns with an empty working list; the nodes handed to
    [WriteJobFilesAndSubmit] are the nodes of the list, each once, and each
    comes after all the nodes it depends on; each has a job id. *)
Theorem submission_loop_order `{Host} (gui : Gui) (scene : string)
    (submitScene : bool) (numJobs : Z) (nodes : list Node) (tr : list Event) :
  nodes ≠ [] →
  NoDup (getName <$> nodes) →
  deps_in_list nodes →
  acyclic nodes →
  submissions_succeed gui scene submitScene numJobs →
  ∃ st,
    (∀ fuel, loop_measure (loop_init nodes tr) < fuel →
       run_loop gui scene submitScene numJobs fuel (loop_init nodes tr) = Done st)
    ∧ items st = []
    ∧ submitted st ≡ₚ nodes
    ∧ NoDup (submitted st)
    ∧ dependencies_first (submitted st)
    ∧ dom (nodeToID st) = list_to_set (getName <$> nodes).
Proof.
  intros Hne Hnd Hclosed Hacyc Hsucceed.
  set (P := λ (st : LoopState), loop_inv nodes st ∧ items st ≠ [] ∧ scan_inv st).
  set (Q := λ (r : Step), ∃ st, r = Done st ∧ loop_inv nodes st ∧ items st = []).
  assert (P (loop_init nodes tr)) as Hinit.
  { split; [apply loop_inv_init|]. split; [done|]. intros i n Hi. cbn in Hi. lia. }
  assert (∀ st st', P st → turn gui scene submitScene numJobs st (Continue st') → P st')
    as Hkeep.
  { intros st st' (Hinv & Hitems & Hscan) Hturn.
    split; [by eapply loop_inv_keep|].
    inversion Hturn as [|node Hnode Hnot| | |
                        |node ? ? ? jobID Hnode Hrdy _ _ _ Hmore]; subst.
    - split; [done|]. intros i n Hi Hn. cbn [next_node currNode items nodeToID] in *.
      destruct (decide (i = currNode st)) as [->|Hlt]; [congruence|].
      apply (Hscan i n); [lia|done].
    - split; [done|]. intros i n Hi. cbn in Hi. lia. }
  assert (∀ st r, P st → turn gui scene submitScene numJobs st r →
            (∀ st', r ≠ Continue st') → Q r) as Hstop.
  { intros st r (Hinv & Hitems & Hscan) Hturn Hhalt.
    inversion Hturn as [Hend|node Hnode _|node e Hnode Hrdy Hids
                        |node ids currResult tr' e Hnode Hrdy _ Hcall Hid
                        |node ? ? ? jobID Hnode Hrdy _ _ _ Hlast
                        |node ? ? ? jobID Hnode Hrdy]; subst.
    - exfalso. apply (exists_ready nodes st Hclosed Hacyc Hinv Hitems).
      apply Forall_lookup. intros i n Hn. apply (Hscan i n); [|done].
      apply lookup_ge_None in Hend. apply lookup_lt_Some in Hn. lia.
    - by destruct (Hhalt (next_node st)).
    - destruct (ready_ids node (nodeToID st) Hrdy) as [ids Hids']. congruence.
    - destruct (Hsucceed node (currJob st) ids (trace st)) as [jobID HjobID].
      rewrite Hcall in HjobID. cbn in HjobID. congruence.
    - eexists. split; [done|]. split; [by eapply loop_inv_submit|done].
    - by edestruct Hhalt. }
  pose proof (run_loop_halts gui scene submitScene numJobs _ _
                (Nat.lt_succ_diag_r (loop_measure (loop_init nodes tr)))) as Hhalt.
  destruct (run_loop_stops gui scene submitScene numJobs P Q Hkeep Hstop _ _ Hinit Hhalt)
    as (st & Hrun & (Hperm & Hdom & Hfirst) & Hempty).
  rewrite Hempty, app_nil_r in Hperm.
  exists st. split.
  { intros fuel Hfuel. rewrite <- Hrun. apply run_loop_more_fuel; [done|lia]. }
  split; [done|]. split; [done|]. split.
  { rewrite Hperm. by eapply NoDup_fmap_1. }
  split; [done|]. rewrite Hdom. apply set_eq. intros x.
  rewrite !elem_of_list_to_set. by rewrite Hperm.
Qed.

Lemma submission_loop_order_witness :
  ∃ st,
    (∀ fuel, loop_measure (loop_init layered_nodes []) < fuel →
       run_loop demo_gui "/shows/demo/shot010.katana" true 3 fuel
         (loop_init layered_nodes []) = Done st)
    ∧ items st = []
    ∧ submitted st ≡ₚ layered_nodes
    ∧ NoDup (submitted st)
    ∧ dependencies_first (submitted st)
    ∧ dom (nodeToID st) = list_to_set (getName <$> layered_nodes).
Proof.
  apply (submission_loop_order demo_gui "/shows/demo/shot010.katana" true 3
           layered_nodes []).
  - discriminate.
  - compute_done.
  - unfold deps_in_list. compute_done.
  - apply (ranked_acyclic layered_rank). unfold ranked. compute_done.
  - intros node currJob dependentIDs tr. eexists. reflexivity.
Defined.

Lemma nodeToID_monotonic_witness :
  let st := after_submit (next_node (loop_init layered_nodes []))
              (render_node "beauty" []) "5f3a9c"
              ("Result=Success" +:+ PyStr.nl +:+ "JobID=5f3a9c")
              (WriteJobFilesAndSubmit demo_gui "/shows/demo/shot010.katana" true
                 (render_node "beauty" []) 0 "" 3 true []).2 in
  let st' := state_of (loop_body demo_gui "/shows/demo/shot010.katana" true 3 st) in
  nodeToID st ⊆ nodeToID st'
  ∧ (submitted st' = submitted st ∧ nodeToID st' = nodeToID st
     ∨ ∃ node, submitted st' = submitted st ++ [node]
         ∧ (∀ d, d ∈ dependencies node → is_Some (nodeToID st !! d))
         ∧ nodeToID st !! getName node = None
         ∧ (nodeToID st' = nodeToID st
            ∨ ∃ jobID, nodeToID st' = <[getName node := jobID]> (nodeToID st))).
Proof.
  apply (nodeToID_monotonic demo_gui "/shows/demo/shot010.katana" true 3
           layered_nodes [] 2).
  - compute_done.
  - vm_compute. reflexivity.
Defined.

Lemma loop_raises_on_blocked_witness :
  ∃ st,
    (∀ fuel, loop_measure (loop_init cyclic_nodes []) < fuel →
       run_loop demo_gui "/shows/demo/shot010.katana" true 2 fuel
         (loop_init cyclic_nodes []) = Raise IndexError st)
    ∧ render_node "fg" ["bg"] ∈ items st
    ∧ (render_node "fg" ["bg"] ∉ submitted st)
    ∧ nodeToID st !! "bg" = None.
Proof.
  apply (loop_raises_on_blocked demo_gui "/shows/demo/shot010.katana" true 2
           cyclic_nodes [] ["fg"; "bg"] (render_node "fg" ["bg"]) "bg").
  - compute_done.
  - compute_done.
  - compute_done.
  - unfold blocked. compute_done.
Defined.

(** C2 (counterexample): with [fg] and [bg] waiting for each other the loop
    looks at both nodes, steps past the end of the list and raises
    [IndexError] in its third turn; [SubmitPressed] ends with that error,
    having spawned no process. *)
Lemma cyclic_dependencies_counterexample :
  (∃ st, run_loop demo_gui "/shows/demo/shot010.katana" true 2 3
           (loop_init cyclic_nodes []) = Raise IndexError st
         ∧ currNode st = 2 ∧ items st = cyclic_nodes ∧ submitted st = [])
  ∧ (SubmitPressed 3 demo_gui (saved_scene cyclic_nodes) []).1 = Raised IndexError
  ∧ spawned (SubmitPressed 3 demo_gui (saved_scene cyclic_nodes) []).2 = [].
Proof.
  split; [|split; vm_compute; reflexivity].
  eexists. split; [vm_compute; reflexivity|]. by vm_compute.
Qed.

(** * Further properties *)

(** ** [GetPaddedPath] and [RightReplace] *)

Lemma chars_app (s t : string) :
  list_ascii_of_string (s +:+ t) = list_ascii_of_string s ++ list_ascii_of_string t.
Proof. induction s as [|a s IH]; [done|]. rewrite append_cons. cbn. by rewrite IH. Qed.

Lemma take_digits_all_digits (s : string) : all_digits (take_digits s) = true.
Proof.
  induction s as [|a s IH]; [done|]. cbn.
  destruct (PyStr.isdigit a) eqn:Ha; [|done]. cbn. by rewrite Ha.
Qed.

Lemma findall_from_digits (ds s : string) (skip : nat) :
  ds ∈ findall_from skip s → all_digits ds = true.
Proof.
  revert skip. induction s as [|a s IH]; intros skip; cbn; [by intros ?%elem_of_nil|].
  destruct skip as [|skip]; [|by apply IH].
  destruct (Ascii.eqb a "."); [|by apply IH].
  destruct (take_digits s) as [|c ds'] eqn:Hds; [by apply IH|].
  intros [->|Hin]%elem_of_cons; [|by eapply IH].
  rewrite <- Hds. apply take_digits_all_digits.
Qed.

Lemma hash_run_padded (ds : string) :
  all_digits ds = true →
  Forall2 padded_char (list_ascii_of_string ds)
    (list_ascii_of_string (hash_run (String.length ds))).
Proof.
  induction ds as [|a ds IH]; cbn; [constructor|].
  intros [Ha Hds]%andb_true_iff. constructor; [by right|by apply IH].
Qed.

Lemma padded_char_refl (l : list ascii) : Forall2 padded_char l l.
Proof. induction l; constructor; [by left|done]. Qed.

(** X1: [GetPaddedPath] keeps the length of the path and every character
    that is not a digit; the only change it makes is a digit turned into a
    hash character. *)
Theorem GetPaddedPath_only_pads (path : string) :
  Forall2 padded_char (list_ascii_of_string path)
    (list_ascii_of_string (GetPaddedPath path))
  ∧ String.length (GetPaddedPath path) = String.length path.
Proof.
  assert (∃ l ds r, path = l +:+ ds +:+ r
            ∧ GetPaddedPath path = l +:+ hash_run (String.length ds) +:+ r
            ∧ all_digits ds = true) as (l & ds & r & Hpath & Hres & Hds).
  { destruct (last (paddingRe_findall path)) as [ds|] eqn:Hlast.
    - destruct (GetPaddedPath_shape path ds Hlast) as (l & r & _ & Hpath & Hres).
      exists l, ds, r. split; [done|]. split; [done|].
      apply last_Some in Hlast as [pre Hpre].
      apply (findall_from_digits ds path 0). unfold paddingRe_findall in Hpre.
      rewrite Hpre. apply elem_of_app. right. left.
    - exists path, "", "". unfold GetPaddedPath. rewrite Hlast. cbn [String.length hash_run].
      by rewrite !append_nil_r. }
  rewrite Hres. split.
  - rewrite Hpath at 1. rewrite !chars_app.
    repeat apply Forall2_app; auto using padded_char_refl, hash_run_padded.
  - rewrite Hpath at 1. rewrite !length_append. f_equal. f_equal.
    clear. induction (String.length ds) as [|n IH]; cbn; [done|]. by rewrite IH.
Qed.

Lemma take_digits_run (ds post : string) :
  all_digits ds = true → no_digits post = true → take_digits (ds +:+ post) = ds.
Proof.
  intros Hds Hpost. induction ds as [|a ds IH].
  - rewrite append_nil_l. destruct post as [|b post]; [done|]. cbn in *.
    apply andb_true_iff in Hpost as [Hb _]. by destruct (PyStr.isdigit b).
  - cbn in Hds. apply andb_true_iff in Hds as [Ha Hds].
    rewrite append_cons. cbn. by rewrite Ha, IH.
Qed.

Lemma findall_from_no_digits (s : string) :
  no_digits s = true → findall_from 0 s = [].
Proof.
  induction s as [|a s IH]; [done|]. cbn. intros [Ha Hs]%andb_true_iff.
  rewrite (IH Hs). destruct (Ascii.eqb a "."); [|done].
  destruct s as [|b s]; [done|]. cbn in *.
  apply andb_true_iff in Hs as [Hb _]. by destruct (PyStr.isdigit b).
Qed.

Lemma findall_from_skip (ds post : string) :
  findall_from (String.length ds) (ds +:+ post) = findall_from 0 post.
Proof.
  induction ds as [|a ds IH]; [done|]. rewrite append_cons. by cbn.
Qed.

Lemma last_cons_Some {A} (x y : A) (l : list A) :
  last l = Some y → last (x :: l) = Some y.
Proof. destruct l; [done|]. by cbn. Qed.

Lemma findall_from_match (s ds : string) :
  take_digits s = ds → ds ≠ "" →
  findall_from 0 (String "." s) = ds :: findall_from (String.length ds) s.
Proof.
  intros <- Hne. cbn [findall_from]. change (Ascii.eqb "." ".") with true.
  cbv iota. by destruct (take_digits s).
Qed.

Lemma findall_last_match (pre ds post : string) (skip : nat) :
  ds ≠ "" → all_digits ds = true → no_digits post = true →
  skip ≤ String.length (take_digits (pre +:+ String "." (ds +:+ post))) →
  last (findall_from skip (pre +:+ String "." (ds +:+ post))) = Some ds.
Proof.
  intros Hne Hds Hpost. remember (String "." (ds +:+ post)) as s eqn:Hs.
  revert skip. induction pre as [|a pre IH]; intros skip Hskip.
  - rewrite append_nil_l in *. subst s.
    cbn [take_digits] in Hskip. change (PyStr.isdigit ".") with false in Hskip.
    cbn in Hskip. assert (skip = 0) as -> by lia.
    rewrite (findall_from_match _ ds) by (by try apply take_digits_run).
    rewrite findall_from_skip, findall_from_no_digits by done. done.
  - rewrite append_cons in *. cbn [findall_from]. cbn [take_digits] in Hskip.
    destruct skip as [|skip].
    + destruct (Ascii.eqb a "."); [|apply IH; lia].
      destruct (take_digits (pre +:+ s)) as [|c ds'] eqn:Hrun; [apply IH; lia|].
      apply last_cons_Some, IH. by rewrite ?Hrun.
    + destruct (PyStr.isdigit a); [|cbn in Hskip; lia].
      apply IH. cbn in Hskip. lia.
Qed.

Lemma prefix_digits (ds t post : string) :
  all_digits ds = true → no_digits post = true →
  String.prefix ds (t +:+ post) = true → String.length ds ≤ String.length t.
Proof.
  revert t. induction ds as [|d ds IH]; intros t Hds Hpost Hpre; [cbn; lia|].
  cbn in Hds. apply andb_true_iff in Hds as [Hd Hds].
  destruct t as [|a t].
  - rewrite append_nil_l in Hpre. destruct post as [|b post]; [done|].
    cbn in Hpre, Hpost. destruct (ascii_dec d b) as [->|]; [|done].
    rewrite Hd in Hpost. done.
  - rewrite append_cons in Hpre. cbn in Hpre.
    destruct (ascii_dec d a); [|done]. cbn. apply le_n_S. by apply IH.
Qed.

Lemma rpartition_no_digits (ds post : string) :
  ds ≠ "" → all_digits ds = true → no_digits post = true →
  PyStr.rpartition ds post = None.
Proof.
  intros Hne Hds Hpost. destruct ds as [|d ds]; [done|].
  cbn in Hds. apply andb_true_iff in Hds as [Hd _].
  induction post as [|b post IH]; [done|].
  cbn in Hpost. apply andb_true_iff in Hpost as [Hb Hpost].
  cbn. rewrite (IH Hpost). destruct (ascii_dec d b) as [->|]; [|done].
  by rewrite Hd in Hb.
Qed.

Lemma rpartition_short_run (ds t post : string) :
  all_digits ds = true → no_digits post = true →
  String.length t < String.length ds →
  PyStr.rpartition ds (t +:+ post) = None.
Proof.
  intros Hds Hpost. induction t as [|a t IH]; intros Hlen.
  - rewrite append_nil_l. apply rpartition_no_digits; [|done..].
    intros ->. cbn in Hlen. lia.
  - rewrite append_cons. cbn [PyStr.rpartition]. cbn in Hlen.
    rewrite IH by lia.
    destruct (String.prefix ds (String a (t +:+ post))) eqn:Hpre; [|done].
    rewrite <- append_cons in Hpre. apply prefix_digits in Hpre; [|done..].
    cbn in Hpre. lia.
Qed.

Lemma drop_append (s t : string) : PyStr.drop (String.length s) (s +:+ t) = t.
Proof. induction s as [|a s IH]; [by destruct t|]. by rewrite append_cons. Qed.

Lemma rpartition_prepend (old p s l r : string) :
  PyStr.rpartition old s = Some (l, r) →
  PyStr.rpartition old (p +:+ s) = Some (p +:+ l, r).
Proof.
  intros Hs. induction p as [|a p IH]; [done|].
  rewrite !append_cons. cbn [PyStr.rpartition]. by rewrite IH.
Qed.

Lemma rpartition_last_run (pre ds post : string) :
  ds ≠ "" → all_digits ds = true → no_digits post = true →
  PyStr.rpartition ds (pre +:+ ds +:+ post) = Some (pre, post).
Proof.
  intros Hne Hds Hpost.
  rewrite <- (append_nil_r pre) at 2. apply rpartition_prepend.
  destruct ds as [|d ds']; [done|]. rewrite append_cons. cbn [PyStr.rpartition].
  rewrite rpartition_short_run; [|done|done|cbn; lia].
  rewrite <- append_cons, prefix_append, drop_append. done.
Qed.

(** X2: when the last dot that is followed by a digit starts the run [ds]
    and no digit comes after that run, [GetPaddedPath] turns exactly that
    run into hash characters, whatever stands before it. *)
Theorem GetPaddedPath_last_run (pre ds post : string) :
  ds ≠ "" → all_digits ds = true → no_digits post = true →
  GetPaddedPath (pre +:+ "." +:+ ds +:+ post)
  = pre +:+ "." +:+ hash_run (String.length ds) +:+ post.
Proof.
  intros Hne Hds Hpost. unfold GetPaddedPath, paddingRe_findall.
  change ("." +:+ ds +:+ post) with (String "." (ds +:+ post)).
  rewrite findall_last_match; [|done..|lia].
  change (String "." (ds +:+ post)) with ("." +:+ ds +:+ post).
  unfold RightReplace. cbn [PyStr.rsplit].
  rewrite <- !string_app_assoc, (string_app_assoc (pre +:+ ".")).
  rewrite rpartition_last_run by done.
  cbn [PyStr.rsplit app PyStr.join]. rewrite padding_loop_run by done.
  by rewrite append_nil_l, !string_app_assoc.
Qed.

Lemma GetPaddedPath_last_run_witness :
  GetPaddedPath ("/shows/demo.2/beauty" +:+ "." +:+ "0001" +:+ ".exr")
  = "/shows/demo.2/beauty" +:+ "." +:+ hash_run (String.length "0001") +:+ ".exr".
Proof.
  apply (GetPaddedPath_last_run "/shows/demo.2/beauty" "0001" ".exr");
    [discriminate|reflexivity|reflexivity].
Defined.

(** ** [RightReplace], job ids and dependencies *)

Lemma rsplit_not_nil (s old : string) (n : nat) : PyStr.rsplit s old n ≠ [].
Proof.
  revert s. induction n as [|n IH]; intros s; cbn; [done|].
  destruct (PyStr.rpartition old s) as [[l r]|]; [|done].
  by intros [_ ?]%app_eq_nil.
Qed.

Lemma join_snoc (sep x : string) (l : list string) :
  l ≠ [] → PyStr.join sep (l ++ [x]) = PyStr.join sep l +:+ sep +:+ x.
Proof.
  induction l as [|y l IH]; [done|]. intros _.
  destruct l as [|z l]; [done|].
  change ((y :: z :: l) ++ [x]) with (y :: ((z :: l) ++ [x])).
  change ((z :: l) ++ [x]) with (z :: (l ++ [x])) at 1.
  rewrite join_cons. change (z :: (l ++ [x])) with ((z :: l) ++ [x]).
  rewrite IH by done. rewrite join_cons. by rewrite !string_app_assoc.
Qed.

(** X3: replacing a non-empty string by itself gives the string back,
    whatever the number of occurrences asked for: joining the pieces of
    [rsplit] with the separator undoes the split. *)
Theorem RightReplace_same (s old : string) (occurrence : nat) :
  old ≠ "" → RightReplace s old old occurrence = s.
Proof.
  intros _.
  unfold RightReplace. revert s. induction occurrence as [|n IH]; intros s; [done|].
  cbn [PyStr.rsplit]. destruct (PyStr.rpartition old s) as [[l r]|] eqn:Hpart; [|done].
  rewrite join_snoc by apply rsplit_not_nil. rewrite IH.
  symmetry. by apply rpartition_sound.
Qed.

Lemma split_line (line rest : string) :
  PyStr.contains PyStr.LF line = false →
  PyStr.split PyStr.LF (line +:+ PyStr.nl +:+ rest) = line :: PyStr.split PyStr.LF rest.
Proof.
  induction line as [|a line IH]; intros Hline.
  - rewrite append_nil_l. change (PyStr.nl +:+ rest) with (String PyStr.LF rest).
    cbn [PyStr.split]. by rewrite Ascii.eqb_refl.
  - cbn [PyStr.contains] in Hline. apply orb_false_iff in Hline as [Ha Hline].
    rewrite append_cons. cbn [PyStr.split]. by rewrite Ha, IH.
Qed.

Lemma split_single (line : string) :
  PyStr.contains PyStr.LF line = false → PyStr.split PyStr.LF line = [line].
Proof.
  induction line as [|a line IH]; intros Hline; [done|].
  cbn [PyStr.contains] in Hline. apply orb_false_iff in Hline as [Ha Hline].
  cbn [PyStr.split]. by rewrite Ha, IH.
Qed.

Lemma split_join (lines : list string) :
  lines ≠ [] → Forall (λ l, PyStr.contains PyStr.LF l = false) lines →
  PyStr.split PyStr.LF (PyStr.join PyStr.nl lines) = lines.
Proof.
  induction lines as [|x lines IH]; [done|]. intros _ [Hx Hrest]%Forall_cons.
  destruct lines as [|y lines]; [by apply split_single|].
  rewrite join_cons, split_line by done. f_equal. by apply IH.
Qed.

Lemma replace_from_absent (old new s : string) (c : ascii) (old' : string) :
  old = String c old' → PyStr.contains c s = false →
  PyStr.replace_from old new 0 s = s.
Proof.
  intros -> Hs. induction s as [|a s IH]; [done|].
  cbn [PyStr.contains] in Hs. apply orb_false_iff in Hs as [Ha Hs].
  cbn [PyStr.replace_from String.prefix].
  destruct (ascii_dec c a) as [->|_]; [by rewrite Ascii.eqb_refl in Ha|].
  by rewrite IH.
Qed.

Lemma replace_JobID (jobID : string) :
  PyStr.contains "J" jobID = false →
  PyStr.replace ("JobID=" +:+ jobID) "JobID=" "" = jobID.
Proof.
  intros Hid. unfold PyStr.replace.
  rewrite !append_cons, append_nil_l. cbn.
  replace (String.prefix "" jobID) with true by (by destruct jobID).
  by eapply replace_from_absent.
Qed.

Lemma RightReplace_same_witness :
  RightReplace "img.0001.exr" "0001" "0001" 1 = "img.0001.exr".
Proof. apply (RightReplace_same "img.0001.exr" "0001" 1). discriminate. Defined.

(** X4: from an output whose first line starting with [JobID=] is
    [JobID=] followed by [jobID], [GetJobIDFromJobResults] gives [jobID]
    back, provided [jobID] holds no line feed and no letter J (so that
    [JobID=] does not occur in it again). *)
Theorem GetJobIDFromJobResults_round_trip (before after : list string) (jobID : string) :
  Forall (λ l, PyStr.contains PyStr.LF l = false ∧ PyStr.startswith l "JobID=" ≠ true)
    before →
  Forall (λ l, PyStr.contains PyStr.LF l = false) after →
  PyStr.contains PyStr.LF jobID = false →
  PyStr.contains "J" jobID = false →
  GetJobIDFromJobResults
    (PyStr.join PyStr.nl (before ++ ("JobID=" +:+ jobID) :: after)) = inr jobID.
Proof.
  intros Hbefore Hafter Hlf HJ. unfold GetJobIDFromJobResults.
  rewrite split_join.
  - rewrite filter_first.
    + by rewrite replace_JobID.
    + eapply Forall_impl; [done|]. by intros l [_ ?].
    + unfold PyStr.startswith. apply prefix_append.
  - by destruct before.
  - apply Forall_app. split; [eapply Forall_impl; [done|]; by intros l [? _]|].
    apply Forall_cons. split; [|done]. by rewrite contains_app, Hlf.
Qed.

Lemma GetJobIDFromJobResults_round_trip_witness :
  GetJobIDFromJobResults
    (PyStr.join PyStr.nl (["Result=Success"] ++ ("JobID=" +:+ "5f3a9c") :: ["The job was submitted."]))
  = inr "5f3a9c".
Proof.
  apply (GetJobIDFromJobResults_round_trip ["Result=Success"] ["The job was submitted."]
           "5f3a9c").
  - repeat constructor. discriminate.
  - repeat constructor.
  - reflexivity.
  - reflexivity.
Defined.

(** X5: a node that is ready stays ready when the dictionary gains
    keys. *)
Theorem RenderNodeReady_mono `{Host} (n : Node) (dct dct' : gmap string string) :
  dom dct ⊆ dom dct' →
  RenderNodeReady n dct = true → RenderNodeReady n dct' = true.
Proof.
  intros Hsub Hready. apply RenderNodeReady_true. intros d Hd.
  apply elem_of_dom, Hsub, elem_of_dom. by eapply RenderNodeReady_true.
Qed.

Lemma RenderNodeReady_mono_witness :
  RenderNodeReady (render_node "comp" ["Render1"]) two_jobs = true.
Proof.
  apply (RenderNodeReady_mono (render_node "comp" ["Render1"])
           (<["Render1" := "123"]> ∅) two_jobs).
  - compute_done.
  - reflexivity.
Defined.

Lemma lookup_all_ids (dct : gmap string string) (deps : list string) (ids : list string) :
  lookup_all dct deps = inr ids ↔ Forall2 (λ d id, dct !! d = Some id) deps ids.
Proof.
  revert ids. induction deps as [|d deps IH]; intros ids; cbn.
  - split; [intros [= <-]; constructor|by intros ->%Forall2_nil_inv_l].
  - split.
    + destruct (dct !! d) as [id|] eqn:Hd; [|done].
      destruct (lookup_all dct deps) as [e|ids'] eqn:Hall; [done|].
      intros [= <-]. constructor; [done|by apply IH].
    + intros (id & ids' & Hd & Hrest & ->)%Forall2_cons_inv_l.
      apply IH in Hrest. by rewrite Hd, Hrest.
Qed.

Lemma lookup_all_error (dct : gmap string string) (deps : list string) (e : PyError) :
  lookup_all dct deps = inl e → e = KeyError.
Proof.
  induction deps as [|d deps IH]; cbn; [done|].
  destruct (dct !! d); [|congruence].
  destruct (lookup_all dct deps); [|done]. intros [= <-]. by apply IH.
Qed.

Lemma GetDependentIDString_ids `{Host} (n : Node) (dct : gmap string string)
    (dependentIDs : string) :
  GetDependentIDString n dct = inr dependentIDs →
  ∃ ids, Forall2 (λ d id, dct !! d = Some id) (GetAllDependencyNames n) ids
         ∧ dependentIDs = PyStr.join "," ids.
Proof.
  unfold GetDependentIDString.
  destruct (lookup_all dct (GetAllDependencyNames n)) as [e|ids] eqn:Hall; [done|].
  intros [= <-]. apply lookup_all_ids in Hall. eauto.
Qed.

(** X6: [GetDependentIDString] and [RenderNodeReady] agree: the string is
    returned exactly when the node is ready, and it is then the ids the
    dictionary holds for the dependency names, joined by commas; otherwise
    the error is a [KeyError]. *)
Theorem GetDependentIDString_ready `{Host} (n : Node) (dct : gmap string string) :
  match GetDependentIDString n dct with
  | inr dependentIDs =>
      RenderNodeReady n dct = true
      ∧ ∃ ids, Forall2 (λ d id, dct !! d = Some id) (GetAllDependencyNames n) ids
               ∧ dependentIDs = PyStr.join "," ids
  | inl e => RenderNodeReady n dct = false ∧ e = KeyError
  end.
Proof.
  destruct (GetDependentIDString n dct) as [e|s] eqn:Hres.
  - split.
    + destruct (RenderNodeReady n dct) eqn:Hready; [|done].
      apply ready_ids in Hready as [s Hs]. congruence.
    + unfold GetDependentIDString in Hres.
      destruct (lookup_all dct (GetAllDependencyNames n)) eqn:Hall; [|done].
      injection Hres as <-. by eapply lookup_all_error.
  - destruct (GetDependentIDString_ids n dct s Hres) as (ids & Hall & ->).
    split; [|eauto].
    apply RenderNodeReady_true. intros d Hd%GetAllDependencyNames_elem.
    apply list_elem_of_lookup in Hd as [i Hi].
    destruct (Forall2_lookup_l _ _ _ _ _ Hall Hi) as (id & _ & Hid). eauto.
Qed.

(** ** Local paths and output nodes *)

Lemma lower_char_colon (b : ascii) : PyStr.lower_char b = ":"%char ↔ b = ":"%char.
Proof.
  destruct b as [[] [] [] [] [] [] [] []]; vm_compute; split; congruence.
Qed.

Lemma lower_char_drive (a : ascii) :
  (PyStr.lower_char a = "c"%char ↔ a = "c"%char ∨ a = "C"%char)
  ∧ (PyStr.lower_char a = "d"%char ↔ a = "d"%char ∨ a = "D"%char)
  ∧ (PyStr.lower_char a = "e"%char ↔ a = "e"%char ∨ a = "E"%char).
Proof.
  destruct a as [[] [] [] [] [] [] [] []]; vm_compute;
    repeat split; try congruence; try (intros [?|?]; congruence); intros _; auto.
Qed.

Lemma startswith_lower_two (a b x y : ascii) (rest : string) :
  PyStr.startswith (PyStr.lower (String a (String b rest))) (String x (String y ""))
  = true ↔ PyStr.lower_char a = x ∧ PyStr.lower_char b = y.
Proof.
  unfold PyStr.startswith. cbn [PyStr.lower String.prefix].
  destruct (ascii_dec x (PyStr.lower_char a)), (ascii_dec y (PyStr.lower_char b));
    destruct (PyStr.lower rest); cbn; split; try done; intros []; done.
Qed.

(** X7: a path is taken to be local exactly when it starts with one of
    the drive letters c, d, e, in either case, followed by a colon. *)
Theorem CheckIsPathLocal_drive (path : string) :
  CheckIsPathLocal path = true ↔
  ∃ drive rest, path = String drive (String ":" rest)
                ∧ drive ∈ ["c"; "d"; "e"; "C"; "D"; "E"]%char.
Proof.
  destruct path as [|a [|b rest]].
  - split; [done|]. by intros (? & ? & ? & _).
  - split; [|by intros (? & ? & ? & _)].
    unfold CheckIsPathLocal, PyStr.startswith. cbn [PyStr.lower String.prefix].
    by repeat destruct (ascii_dec _ _).
  - unfold CheckIsPathLocal. rewrite !orb_true_iff, !startswith_lower_two.
    rewrite lower_char_colon.
    destruct (lower_char_drive a) as (Hc & Hd & He). rewrite Hc, Hd, He.
    split.
    + intros Hcase. exists a, rest.
      assert (b = ":"%char) as -> by tauto. split; [done|].
      rewrite !elem_of_cons. tauto.
    + intros (drive & rest' & [= -> -> ->] & Hdrive).
      rewrite !elem_of_cons, elem_of_nil in Hdrive. tauto.
Qed.

Lemma get_output_nodes_elem (sc : Scene) (include_image_write_nodes : bool) (n : Node) :
  n ∈ get_output_nodes sc include_image_write_nodes ↔
  n ∈ allNodes sc ∧ isBypassed n = false
  ∧ (getType n = "Render"
     ∨ (include_image_write_nodes = true ∧ getType n = "ImageWrite")).
Proof.
  unfold get_output_nodes, GetAllNodesByType. destruct include_image_write_nodes.
  - rewrite list_elem_of_filter, elem_of_app, !list_elem_of_filter. intuition congruence.
  - rewrite !list_elem_of_filter. intuition congruence.
Qed.

(** X8: [get_output_nodes] gives the nodes of the scene that are not
    bypassed and are of type Render, or of type ImageWrite when those are
    asked for; the ImageWrite nodes come after all Render nodes, and when
    the scene lists no node twice neither does the result. *)
Theorem get_output_nodes_spec (sc : Scene) (include_image_write_nodes : bool) :
  (∀ n, n ∈ get_output_nodes sc include_image_write_nodes ↔
        n ∈ allNodes sc ∧ isBypassed n = false
        ∧ (getType n = "Render"
           ∨ (include_image_write_nodes = true ∧ getType n = "ImageWrite")))
  ∧ get_output_nodes sc true
    = get_output_nodes sc false
      ++ filter (λ n, isBypassed n = false) (GetAllNodesByType sc "ImageWrite")
  ∧ (NoDup (allNodes sc) → NoDup (get_output_nodes sc include_image_write_nodes)).
Proof.
  split; [apply get_output_nodes_elem|].
  unfold get_output_nodes, GetAllNodesByType. split.
  - by rewrite filter_app.
  - intros Hnd. apply NoDup_filter. destruct include_image_write_nodes.
    + apply NoDup_app. split; [by apply NoDup_filter|].
      split; [|by apply NoDup_filter].
      intros n [Hr _]%list_elem_of_filter [Hi _]%list_elem_of_filter. congruence.
    + by apply NoDup_filter.
Qed.

(** ** Keys of the job descriptor *)

Lemma append_inj_l (p s t : string) : p +:+ s = p +:+ t → s = t.
Proof. induction p as [|a p IH]; [done|]. rewrite !append_cons. intros [= ?]. auto. Qed.

Lemma str_nat_inj (i j : nat) : str_nat i = str_nat j → i = j.
Proof.
  unfold str_nat. intros Heq. apply DecimalNat.Unsigned.to_uint_inj.
  assert (NilEmpty.uint_of_string (NilEmpty.string_of_uint (Nat.to_uint i))
          = NilEmpty.uint_of_string (NilEmpty.string_of_uint (Nat.to_uint j))) as Hu
    by by rewrite Heq.
  rewrite !NilEmpty.usu in Hu. congruence.
Qed.

Lemma output_entries_keys `{Host} (outputs : list string) (i : nat) :
  (output_entries i outputs).*1
  = (λ j, "OutputFilename" +:+ str_nat j) <$> seq i (length outputs).
Proof.
  revert i. induction outputs as [|o outputs IH]; intros i; [done|].
  cbn [output_entries]. destruct (os_path_split o) as [tempPath tempFileName].
  cbn. by rewrite IH.
Qed.

Lemma output_entries_keys_NoDup `{Host} (outputs : list string) (i : nat) :
  NoDup (output_entries i outputs).*1.
Proof.
  rewrite output_entries_keys. apply NoDup_fmap_2; [|apply NoDup_seq].
  intros j j' Heq. by apply str_nat_inj, (append_inj_l "OutputFilename").
Qed.

(** X9: among the lines the script itself writes into a job descriptor
    no key comes twice: the fixed keys differ from one another and from the
    numbered [OutputFilename] keys, which differ by their number. *)
Theorem job_info_keys_NoDup `{Host} (gui : Gui) (renderNode : Node) (currJob : Z)
    (dependentIDs : string) (totalJobs : Z) (framSettingOn : bool) :
  NoDup (job_info_entries gui renderNode currJob dependentIDs totalJobs framSettingOn).*1.
Proof.
  unfold job_info_entries.
  set (outs := if String.eqb (getType renderNode) "Render"
               then output_entries 0 (renderOutputLocations renderNode)
               else if String.eqb (getType renderNode) "ImageWrite"
                    then output_entries 0 (inputPortFiles renderNode) else []).
  assert (NoDup outs.*1) as Houts.
  { subst outs. repeat case_match; try apply output_entries_keys_NoDup. constructor. }
  assert (∀ k, k ∈ outs.*1 → String.prefix "OutputFilename" k = true) as Hpre.
  { intros k (kv & -> & Hkv)%list_elem_of_fmap. destruct kv as [k v].
    assert (∃ j, k = "OutputFilename" +:+ str_nat j) as [j ->].
    { subst outs. repeat case_match; try (by eapply output_entries_key).
      by apply elem_of_nil in Hkv. }
    apply prefix_append. }
  clearbody outs. rewrite !fmap_app. rewrite !app_assoc.
  apply NoDup_app. split; [|split; [|done]].
  - destruct (isBlackListWidget gui), (submitSuspendedWidget gui), (1 <? totalJobs)%Z;
      cbn [fmap list_fmap fst app]; compute_done.
  - intros k Hk Hout%Hpre. revert Hk.
    destruct (isBlackListWidget gui), (submitSuspendedWidget gui), (1 <? totalJobs)%Z;
      cbn [fmap list_fmap fst app]; rewrite !elem_of_cons, elem_of_nil;
      intros Hk; repeat destruct Hk as [->|Hk]; done.
Qed.

(** ** The loop, seen from [SubmitPressed] *)

Section LoopFacts.

Context `{Host}.
Variables (gui : Gui) (scene : string) (submitScene : bool) (numJobs : Z).

Local Abbreviation body := (loop_body gui scene submitScene numJobs).
Local Abbreviation run := (run_loop gui scene submitScene numJobs).
Local Abbreviation turns := (turn gui scene submitScene numJobs).
Local Abbreviation submit := (WriteJobFilesAndSubmit gui scene submitScene).

(** What holds before a turn and after every turn, however it ends, holds
    in every state the loop is seen in. *)
Lemma run_loop_always (P : LoopState → Prop) :
  (∀ st r, P st → turns st r → P (state_of r)) →
  ∀ fuel st, P st → P (state_of (run fuel st)).
Proof.
  intros Hkeep fuel. induction fuel as [|fuel IH]; intros st HP; [done|].
  cbn. pose proof (Hkeep st _ HP (loop_body_turn gui scene submitScene numJobs st)) as Hr.
  destruct (body st) as [st1| |]; [by apply IH|done..].
Qed.



Lemma WriteJobFilesAndSubmit_trace (node : Node) (currJob : Z) (dependentIDs : string)
    (framSettingOn : bool) (tr : list Event) :
  ∃ new c1 c2,
    (submit node currJob dependentIDs numJobs framSettingOn tr).2 = tr ++ new
    ∧ spawned new = [c1; c2]
    ∧ ∃ file extra,
        EWrite file
          (job_info_text gui node currJob dependentIDs numJobs framSettingOn +:+ extra)
        ∈ new.
Proof.
  unfold WriteJobFilesAndSubmit, ConcatenatePipelineSettingsToJob, CallDeadlineCommand.
  cbn [snd]. destruct (file_lines tr _) as [data|].
  - eexists _, _, _. split; [rewrite <- !app_assoc; reflexivity|].
    split; [reflexivity|]. eexists _, (concat_strings data). right. left.
  - eexists _, _, _. split; [rewrite <- !app_assoc; reflexivity|].
    split; [reflexivity|]. eexists _, "". rewrite append_nil_r. left.
Qed.

Lemma loop_counters_always (nodes : list Node) (tr : list Event) (fuel : nat) :
  let st := state_of (run fuel (loop_init nodes tr)) in
  currJob st = Z.of_nat (length (submitted st))
  ∧ length (spawned (trace st)) = length (spawned tr) + 2 * length (submitted st)
  ∧ tr `prefix_of` trace st.
Proof.
  apply (run_loop_always
           (λ st, currJob st = Z.of_nat (length (submitted st))
                  ∧ length (spawned (trace st))
                    = length (spawned tr) + 2 * length (submitted st)
                  ∧ tr `prefix_of` trace st)); [|cbn [loop_init currJob submitted trace length]; split; [done|split; [lia|done]]].
  intros st r (Hjob & Hspawn & Hpre) Hturn.
  assert (∀ node ids res tr',
            submit node (currJob st) ids numJobs true (trace st) = (res, tr') →
            (currJob st + 1)%Z = Z.of_nat (length (submitted st ++ [node]))
            ∧ length (spawned tr')
              = length (spawned tr) + 2 * length (submitted st ++ [node])
            ∧ tr `prefix_of` tr') as Hcall.
  { intros node ids res tr' Hsub.
    destruct (WriteJobFilesAndSubmit_trace node (currJob st) ids true (trace st))
      as (new & c1 & c2 & Htr & Hnew & _).
    rewrite Hsub in Htr. cbn in Htr. subst tr'.
    rewrite length_app, spawned_app, length_app, Hnew, Hspawn, Hjob. cbn.
    split; [lia|]. split; [lia|]. by apply prefix_app_r. }
  inversion Hturn as [| | |node ? ? ? ? _ _ _ Hsub|node ? ? ? ? _ _ _ Hsub
                      |node ? ? ? ? _ _ _ Hsub]; subst;
    cbn [state_of next_node after_call after_submit currJob submitted trace];
    eauto.
Qed.

(** X10: in every state the loop reaches, the job counter is the number
    of nodes submitted so far, every submission has spawned exactly two
    processes, and the trace the loop started from is still a prefix of the
    trace. *)
Theorem loop_counters (nodes : list Node) (tr : list Event) (fuel : nat) :
  let st := state_of (run fuel (loop_init nodes tr)) in
  currJob st = Z.of_nat (length (submitted st))
  ∧ length (spawned (trace st)) = length (spawned tr) + 2 * length (submitted st)
  ∧ tr `prefix_of` trace st.
Proof. apply loop_counters_always. Qed.




End LoopFacts.



Lemma loop_measure_init `{Host} (nodes : list Node) (tr : list Event) :
  loop_measure (loop_init nodes tr) = submit_all_bound (length nodes).
Proof. unfold loop_measure, submit_all_bound. cbn. lia. Qed.

(** X12: [SubmitPressed] always comes to an end: with more turns than
    [submit_all_bound] of the number of output nodes the loop is never cut
    off, and the result no longer depends on the number of turns
    allowed. *)
Theorem SubmitPressed_halts `{Host} (fuel fuel' : nat) (gui : Gui) (sc : Scene)
    (tr : list Event) :
  submit_all_bound (length (get_output_nodes sc (includeImageWrite gui))) < fuel →
  submit_all_bound (length (get_output_nodes sc (includeImageWrite gui))) < fuel' →
  (SubmitPressed fuel gui sc tr).1 ≠ OutOfFuel
  ∧ SubmitPressed fuel' gui sc tr = SubmitPressed fuel gui sc tr.
Proof.
  intros Hfuel Hfuel'.
  assert (∀ scene submitScene tr0,
            (submit_jobs fuel gui sc scene (get_output_nodes sc (includeImageWrite gui))
               submitScene tr0).1 ≠ OutOfFuel
            ∧ submit_jobs fuel' gui sc scene (get_output_nodes sc (includeImageWrite gui))
                submitScene tr0
              = submit_jobs fuel gui sc scene (get_output_nodes sc (includeImageWrite gui))
                  submitScene tr0) as Hjobs.
  { intros scene submitScene tr0. unfold submit_jobs.
    set (nodes := get_output_nodes sc (includeImageWrite gui)) in *.
    destruct (String.eqb _ _); [by repeat case_match|].
    destruct (String.eqb _ _); [|done].
    set (init := loop_init nodes (tr0 ++ [ESyncAllOutputPorts])).
    pose proof (loop_measure_init nodes (tr0 ++ [ESyncAllOutputPorts])) as Hm.
    fold init in Hm.
    assert (∀ st', run_loop gui scene submitScene (Z.of_nat (length nodes))
                     (S (loop_measure init)) init ≠ Continue st') as Hhalt
      by (apply run_loop_halts; lia).
    rewrite (run_loop_more_fuel _ _ _ _ (S (loop_measure init)) fuel) by (done || lia).
    rewrite (run_loop_more_fuel _ _ _ _ (S (loop_measure init)) fuel') by (done || lia).
    split; [|done].
    destruct (run_loop _ _ _ _ (S (loop_measure init)) init) eqn:Hrun; [|done..].
    by destruct (Hhalt st). }
  unfold SubmitPressed. repeat case_match; try done; apply Hjobs.
Qed.

(** X13: when the scene is on a local drive, is not submitted with the
    job and the user answers no, [SubmitPressed] returns right after the
    question: nothing is written but the sticky settings and no process is
    spawned. *)
Lemma SubmitPressed_halts_witness :
  (SubmitPressed 20 demo_gui (saved_scene layered_nodes) []).1 ≠ OutOfFuel
  ∧ SubmitPressed 30 demo_gui (saved_scene layered_nodes) []
    = SubmitPressed 20 demo_gui (saved_scene layered_nodes) [].
Proof.
  apply (SubmitPressed_halts 20 30 demo_gui (saved_scene layered_nodes) []).
  - vm_compute. lia.
  - vm_compute. lia.
Defined.

Theorem SubmitPressed_declined `{Host} (fuel : nat) (gui : Gui) (sc : Scene)
    (tr : list Event) :
  let asked :=
    WriteStickySettings gui
      (tr ++ [EPrint "Submitting Katana Render Job(s) To Deadline..."])
    ++ [EQuestion "Local Katana Scene Submission"
          "The Katana scene is local and is not being submitted with the job. Deadline Workers may not be able to find the Katana file. Do you wish to submit anyway?"] in
  GetSourceFile sc ≠ "" →
  get_output_nodes sc (includeImageWrite gui) ≠ [] →
  frameRangeWidget gui ≠ "" →
  submitSceneBox gui = false →
  CheckIsPathLocal (GetSourceFile sc) = true →
  question_yes asked = false →
  SubmitPressed fuel gui sc tr = (Returned, asked)
  ∧ spawned asked = spawned tr.
Proof.
  intros asked Hscene Hnodes Hframes Hbox Hlocal Hno. split.
  - unfold SubmitPressed.
    destruct (String.eqb_spec (GetSourceFile sc) ""); [done|].
    destruct (get_output_nodes sc (includeImageWrite gui)); [done|]. cbn [length Nat.eqb].
    destruct (String.eqb_spec (frameRangeWidget gui) ""); [done|].
    rewrite Hbox, Hlocal. cbn [negb andb]. fold asked. by rewrite Hno.
  - subst asked. rewrite spawned_app, spawned_WriteStickySettings, spawned_app. cbn.
    by rewrite !app_nil_r.
Qed.

(** X14: the only errors [SubmitPressed] ends with are the
    [AttributeError] of a selected node that does not exist and the
    [IndexError] of the loop over all nodes. *)
Lemma SubmitPressed_declined_witness :
  let asked :=
    @WriteStickySettings declining_host unsubmitted_scene_gui
      ([] ++ [EPrint "Submitting Katana Render Job(s) To Deadline..."])
    ++ [EQuestion "Local Katana Scene Submission"
          "The Katana scene is local and is not being submitted with the job. Deadline Workers may not be able to find the Katana file. Do you wish to submit anyway?"] in
  @SubmitPressed declining_host 20 unsubmitted_scene_gui (local_scene layered_nodes) []
  = (Returned, asked)
  ∧ spawned asked = spawned [].
Proof.
  apply (@SubmitPressed_declined declining_host 20 unsubmitted_scene_gui
           (local_scene layered_nodes) []).
  - discriminate.
  - discriminate.
  - discriminate.
  - reflexivity.
  - reflexivity.
  - reflexivity.
Defined.









(** ** [CallDeadlineCommand] with every option *)

Section CommandFacts.

Context `{Host} `{Shell}.



End CommandFacts.



(** ** Browse buttons and pipeline tools *)



Section BrowseFacts.

Context `{Host} `{Shell}.


(** X20: a click on the pipeline tools button with an unsaved scene shows
    the dialog Scene not saved, spawns nothing and leaves the status label
    as it is.  With a saved scene it spawns exactly one process; the label
    becomes the stripped output when the exit code is zero, and otherwise
    Pipeline Tools Error, with one message printed and one dialog
    shown. *)
Theorem PipelineToolsClicked_spec (statusLabel : string) (sc : Scene) (tr : list Event) :
  let args := [GetDeadlineCommand_with false; "-ExecuteScript";
               os_path_join IntegrationMain "IntegrationUIStandAlone.py";
               "-v"; "2"; "-d"; "Katana"; "Draft"; "Shotgun"; "FTrack";
               "--path"; GetSourceFile sc] in
  let '(label, dialogs, tr') := PipelineToolsClicked statusLabel sc tr in
  if String.eqb (GetSourceFile sc) ""
  then label = statusLabel ∧ tr' = tr
       ∧ dialogs = [("Pipeline Tools Error", "Scene not saved")]
  else if (popen_returncode tr args =? 0)%Z
  then label = PyStr.strip (popen_stdout tr args) ∧ tr' = tr ++ [EPopen args]
       ∧ dialogs = []
  else label = "Pipeline Tools Error"
       ∧ (∃ msg, tr' = tr ++ [EPopen args; EPrint msg])
       ∧ ∃ text, dialogs = [("Pipeline Tools Error", text)].
Proof.
  intros args. unfold PipelineToolsClicked, OpenIntegrationWindow.
  destruct (String.eqb (GetSourceFile sc) ""); [done|].
  unfold CallDeadlineCommand_full, HandlePipelineToolsCalledProcessError.
  cbn [orb andb default from_option id]. cbv zeta. fold args.
  destruct (popen_returncode tr args =? 0)%Z; cbn [negb].
  - done.
  - split; [done|]. split; [|by eexists].
    eexists. by rewrite <- app_assoc.
Qed.

End BrowseFacts.

(** ** How the scene is sent *)

Section SceneFacts.

Context `{Host}.

(** X21: with the check box of the form passed on as [SubmitPressed]
    does, the scene reaches Deadline in exactly one way: as third line of
    the argument file and without a [KatanaFile] key in the plugin
    descriptor when the scene is submitted with the job, as the
    [KatanaFile] entry that opens the plugin descriptor and with a two-line
    argument file when it is not. *)
Theorem scene_sent_one_way (gui : Gui) (scene : string) (renderNode : Node)
    (currJob : Z) (dependentIDs : string) (totalJobs : Z) (framSettingOn : bool)
    (tr : list Event) :
  let tr' := (WriteJobFilesAndSubmit gui scene (submitSceneBox gui) renderNode
                currJob dependentIDs totalJobs framSettingOn tr).2 in
  ∃ argFile jobFile pluginFile,
    EWrite pluginFile (plugin_info_text gui scene renderNode) ∈ tr'
    ∧ if submitSceneBox gui
      then ("KatanaFile" ∉ (plugin_info_entries gui scene renderNode).*1)
           ∧ EWrite argFile (PyStr.join PyStr.nl [jobFile; pluginFile; scene]) ∈ tr'
      else head (plugin_info_entries gui scene renderNode) = Some ("KatanaFile", scene)
           ∧ EWrite argFile (PyStr.join PyStr.nl [jobFile; pluginFile]) ∈ tr'.
Proof.
  unfold WriteJobFilesAndSubmit, ConcatenatePipelineSettingsToJob, CallDeadlineCommand,
    plugin_info_entries.
  cbn [snd]. cbv zeta. eexists _, _, _.
  rewrite !elem_of_app, !elem_of_cons.
  split; [by auto 10|].
  destruct (submitSceneBox gui); cbn [negb app fmap list_fmap fst head].
  - split; [|rewrite !elem_of_app, !elem_of_cons; by auto 10].
    rewrite !elem_of_cons, elem_of_nil. intros [?|[?|[?|[]]]]; discriminate.
  - split; [done|]. rewrite !elem_of_app, !elem_of_cons; by auto 10.
Qed.

End SceneFacts.
